(** * Opportunity controller and Item Group dashboard of erpnext

    A shallow embedding of
    - [erpnext/crm/doctype/opportunity/opportunity.py]
    - [erpnext/setup/doctype/item_group/item_group_dashboard.py]

    Documents are the dictionaries the host framework works with: a row is a
    finite map from field names to Python values, a table is a finite map
    from document names (the primary key) to rows.  Controller methods that
    mutate [self] in place and may raise are functions returning the state
    they leave behind together with the exception, if any. *)

From Stdlib Require Import ZArith.
From stdpp Require Import gmap strings list fin_maps pretty.

Local Open Scope string_scope.
#[local] Set Warnings "-clear-no-such-hyp".

(** ** Python values *)

Inductive value : Type :=
  | VNone
  | VBool (b : bool)
  | VInt (z : Z)
  | VStr (s : string).

#[global] Instance value_eq_dec : EqDecision value.
Proof. solve_decision. Defined.

(** Python truthiness: [None], [False], [0] and [''] are falsy. *)
Definition truthy (v : value) : bool :=
  match v with
  | VNone => false
  | VBool b => b
  | VInt z => negb (z =? 0)%Z
  | VStr s => match s with "" => false | _ => true end
  end.

(** [a or b] *)
Definition py_or (a b : value) : value := if truthy a then a else b.

(** A row of a table, a child document, a [frappe._dict]. *)
Abbreviation Row := (gmap string value).

(** [d.get(key)]: a missing key reads as [None]. *)
Definition row_get (d : Row) (key : string) : value := default VNone (d !! key).

(** [d.set(key, value)] *)
Definition row_set (d : Row) (key : string) (v : value) : Row := <[key := v]> d.

(** What a function returns when it may hand back a query result. *)
Inductive pyobj : Type :=
  | Scalar (v : value)
  | Rows (l : list Row).

Definition truthy_obj (o : pyobj) : bool :=
  match o with
  | Scalar v => truthy v
  | Rows [] => false
  | Rows (_ :: _) => true
  end.

Definition obj_or (a b : pyobj) : pyobj := if truthy_obj a then a else b.

(** Exceptions the controller can raise. *)
Inductive exn : Type :=
  | ValidationError (msg : string)
  | AttributeError (msg : string)
  | TypeError (msg : string)
  | NameError (msg : string)
  | DoesNotExistError (doctype name : string).

#[global] Instance exn_eq_dec : EqDecision exn.
Proof. solve_decision. Defined.

Inductive result (A : Type) : Type :=
  | Ok (a : A)
  | Err (e : exn).
Arguments Ok {A} a.
Arguments Err {A} e.

(** ** Documents and the record store *)

(** An Opportunity document in memory. [fields] holds the scalar fields
    ([status], [title], [party_name], ...), the two child tables are lists of
    rows, [flags] is [doc.flags]. *)
Record Opportunity : Type := mkOpportunity {
  name : string;
  modified : Z;
  fields : Row;
  items : list Row;
  lost_reasons : list Row;
  flags : gmap string value
}.

Definition set_modified (t : Z) (self : Opportunity) : Opportunity :=
  mkOpportunity (name self) t (fields self) (items self) (lost_reasons self) (flags self).

Definition set_name (n : string) (self : Opportunity) : Opportunity :=
  mkOpportunity n (modified self) (fields self) (items self) (lost_reasons self) (flags self).

Definition set_field (key : string) (v : value) (self : Opportunity) : Opportunity :=
  mkOpportunity (name self) (modified self) (row_set (fields self) key v)
                (items self) (lost_reasons self) (flags self).

Definition set_items (l : list Row) (self : Opportunity) : Opportunity :=
  mkOpportunity (name self) (modified self) (fields self) l (lost_reasons self) (flags self).

Definition set_lost_reasons (l : list Row) (self : Opportunity) : Opportunity :=
  mkOpportunity (name self) (modified self) (fields self) (items self) l (flags self).

Definition clear_flags (self : Opportunity) : Opportunity :=
  mkOpportunity (name self) (modified self) (fields self) (items self) (lost_reasons self) ∅.

Definition set_flag (key : string) (v : value) (self : Opportunity) : Opportunity :=
  mkOpportunity (name self) (modified self) (fields self) (items self) (lost_reasons self)
                (<[key := v]> (flags self)).

(** [self.status], [self.title], ... *)
Definition field (self : Opportunity) (key : string) : value := row_get (fields self) key.

(** The record store. Every table is keyed by the document name.
    [singles] holds the values of single documents such as Selling Settings,
    already cast to the integer type of their field. *)
Record DB : Type := mkDB {
  tabOpportunity : gmap string Opportunity;
  tabQuotation : gmap string Row;
  tabQuotationItem : gmap string Row;
  tabVehicleQuotation : gmap string Row;
  tabItem : gmap string Row;
  tabCustomer : gmap string Row;
  tabLead : gmap string Row;
  singles : gmap (string * string) Z
}.

Definition set_tabOpportunity (t : gmap string Opportunity) (db : DB) : DB :=
  mkDB t (tabQuotation db) (tabQuotationItem db) (tabVehicleQuotation db)
       (tabItem db) (tabCustomer db) (tabLead db) (singles db).

(** ** Queries of the host framework *)

Module frappe.

(** SQL equality: NULL is equal to nothing. *)
Definition sql_eq (a b : value) : bool :=
  match a, b with
  | VNone, _ | _, VNone => false
  | _, _ => bool_decide (a = b)
  end.

(** [ifnull(column, '')], which the query builder wraps around a column
    compared with [not in]. *)
Definition ifnull (v : value) : value :=
  match v with VNone => VStr "" | _ => v end.

(** One entry of a filter dictionary: [key: v] or [key: ("not in", vs)]. *)
Inductive condition : Type :=
  | Eq (v : value)
  | NotIn (vs : list value).

Definition holds (r : Row) (f : string * condition) : bool :=
  match f.2 with
  | Eq v => sql_eq (row_get r f.1) v
  | NotIn vs => negb (existsb (sql_eq (ifnull (row_get r f.1))) vs)
  end.

Definition matches (filters : list (string * condition)) (r : Row) : bool :=
  forallb (holds r) filters.

(** The rows of a table a predicate selects, with their names. *)
Definition select (t : gmap string Row) (cond : Row → bool) : list (string * Row) :=
  filter (λ nr, Is_true (cond nr.2)) (map_to_list t).

(** [frappe.db.get_value(doctype, filters)]: the name of the first
    matching document, [None] when there is none. *)
Definition get_value (t : gmap string Row) (filters : list (string * condition)) : value :=
  match select t (matches filters) with
  | [] => VNone
  | nr :: _ => VStr nr.1
  end.

(** [frappe.get_all(doctype, filters, 'name')]: one dictionary
    [{'name': ...}] per matching document. *)
Definition get_all (t : gmap string Row) (filters : list (string * condition)) : list Row :=
  (λ nr : string * Row, {["name" := VStr nr.1]}) <$> select t (matches filters).

(** The document name a value denotes when it is passed where a name is
    expected: text as it is, a number through [str]. *)
Definition docname (v : value) : option string :=
  match v with
  | VNone => None
  | VBool b => Some (if b then "True" else "False")
  | VInt z => Some (pretty z)
  | VStr s => Some s
  end.

Definition by_name (t : gmap string Row) (v : value) : option Row :=
  docname v ≫= λ n, t !! n.

(** [frappe.db.get_value(doctype, name, fieldname)]: the value of one
    field, [None] when the document does not exist. *)
Definition get_value_field (t : gmap string Row) (v : value) (fieldname : string) : value :=
  from_option (λ r, row_get r fieldname) VNone (by_name t v).

(** [frappe.db.get_value(doctype, name, fieldnames)]: the tuple of the
    fields, [None] when the document does not exist. *)
Definition get_value_tuple (t : gmap string Row) (v : value) (fieldnames : list string)
  : option (list value) :=
  (λ r, row_get r <$> fieldnames) <$> by_name t v.

(** [frappe.db.get_value(doctype, name, fieldnames, as_dict=True)]: a
    dictionary with exactly the fields asked for, [None] when the
    document does not exist. *)
Definition get_value_dict (t : gmap string Row) (v : value) (fieldnames : list string)
  : option Row :=
  (λ r, list_to_map ((λ k, (k, row_get r k)) <$> fieldnames)) <$> by_name t v.

(** [frappe.db.get_single_value(doctype, field)] *)
Definition get_single_value (db_singles : gmap (string * string) Z) (doctype fieldname : string)
  : option Z :=
  db_singles !! (doctype, fieldname).

End frappe.

(** ** Status predicates of the Opportunity controller *)

(** [has_active_quotation], lines 59-72 *)
Definition has_active_quotation (db : DB) (self : Opportunity) : pyobj :=
  let vehicle_quotation :=
    frappe.get_value (tabVehicleQuotation db)
      [("opportunity", frappe.Eq (VStr (name self)));
       ("docstatus", frappe.Eq (VInt 1));
       ("status", frappe.NotIn [VStr "Lost"; VStr "Closed"])] in
  let quotation :=
    frappe.get_all (tabQuotation db)
      [("opportunity", frappe.Eq (VStr (name self)));
       ("status", frappe.NotIn [VStr "Lost"; VStr "Closed"]);
       ("docstatus", frappe.Eq (VInt 1))] in
  obj_or (Rows quotation) (Scalar vehicle_quotation).

(** The join of [has_ordered_quotation]: one row per Quotation Item [qi]
    whose parent [q] is a submitted, ordered Quotation and whose
    [prevdoc_docname] is the Opportunity. *)
Definition ordered_quotation_rows (db : DB) (opportunity : string) : list Row :=
  omap (λ nqi : string * Row,
          match row_get nqi.2 "parent" with
          | VStr parent =>
              match tabQuotation db !! parent with
              | Some q =>
                  if frappe.sql_eq (row_get q "docstatus") (VInt 1)
                     && frappe.sql_eq (row_get nqi.2 "prevdoc_docname") (VStr opportunity)
                     && frappe.sql_eq (row_get q "status") (VStr "Ordered")
                  then Some ({["name" := VStr parent]} : Row)
                  else None
              | None => None
              end
          | _ => None
          end)
       (map_to_list (tabQuotationItem db)).

(** [has_ordered_quotation], lines 74-87 *)
Definition has_ordered_quotation (db : DB) (self : Opportunity) : pyobj :=
  let vehicle_quotation :=
    frappe.get_value (tabVehicleQuotation db)
      [("opportunity", frappe.Eq (VStr (name self)));
       ("docstatus", frappe.Eq (VInt 1));
       ("status", frappe.Eq (VStr "Ordered"))] in
  let quotation := ordered_quotation_rows db (name self) in
  obj_or (Rows quotation) (Scalar vehicle_quotation).

(** The rows of the raw query of [has_lost_quotation]. *)
Definition lost_quotation_rows (db : DB) (opportunity : string) : list Row :=
  (λ nr : string * Row, {["name" := VStr nr.1]}) <$>
    frappe.select (tabQuotation db)
      (λ r, frappe.sql_eq (row_get r "docstatus") (VInt 1)
            && frappe.sql_eq (row_get r "opportunity") (VStr opportunity)
            && frappe.sql_eq (row_get r "status") (VStr "Lost")).

(** [has_lost_quotation], lines 89-107. Falling off the end of the function
    returns [None]. *)
Definition has_lost_quotation (db : DB) (self : Opportunity) : value :=
  let vehicle_quotation :=
    frappe.get_value (tabVehicleQuotation db)
      [("opportunity", frappe.Eq (VStr (name self)));
       ("docstatus", frappe.Eq (VInt 1));
       ("status", frappe.Eq (VStr "Lost"))] in
  let lost_quotation := lost_quotation_rows db (name self) in
  if truthy_obj (obj_or (Rows lost_quotation) (Scalar vehicle_quotation)) then
    if truthy_obj (has_active_quotation db self) then VBool false
    else VBool true
  else VNone.

(** ** The status rules *)

(** [self.status_map] as [__init__] sets it, lines 21-27: pairs of a target
    status and a condition, which is either [eval:] followed by an expression
    or the name of a method of the document. *)
Definition status_map (self : Opportunity) : list (string * string) :=
  [ ("Lost", "eval:self.status=='Lost'");
    ("Lost", "has_lost_quotation");
    ("Quotation", "has_active_quotation");
    ("Converted", "has_ordered_quotation");
    ("Closed", "eval:self.status=='Closed'") ].

(** Modelled from the spec: the evaluation of one condition of the rule
    list. The evaluator lives in the status updater the controller inherits
    from, which is not among the sources; a condition naming a method calls
    that method, an [eval:] condition compares [self.status]. *)
Definition rule_holds (db : DB) (self : Opportunity) (cond : string) : bool :=
  if decide (cond = "eval:self.status=='Lost'") then
    bool_decide (field self "status" = VStr "Lost")
  else if decide (cond = "eval:self.status=='Closed'") then
    bool_decide (field self "status" = VStr "Closed")
  else if decide (cond = "has_lost_quotation") then truthy (has_lost_quotation db self)
  else if decide (cond = "has_active_quotation") then truthy_obj (has_active_quotation db self)
  else if decide (cond = "has_ordered_quotation") then truthy_obj (has_ordered_quotation db self)
  else false.

(** Modelled from the spec: the status updater is not among the sources.
    "An ordered rule list evaluated top-to-bottom (first matching rule
    wins)": a linear scan that yields the target of the first rule whose
    condition holds, and nothing when no rule matches. *)
Fixpoint first_match (db : DB) (self : Opportunity) (rules : list (string * string))
  : option string :=
  match rules with
  | [] => None
  | rule :: rest =>
      if rule_holds db self rule.2 then Some rule.1 else first_match db self rest
  end.

(** Modelled from the spec: the derived status of a document, which stays
    as it is when no rule matches. *)
Definition derive_status (db : DB) (self : Opportunity) : value :=
  match first_match db self (status_map self) with
  | Some s => VStr s
  | None => field self "status"
  end.

(** ** Steps that mutate a state and may raise *)

(** A step leaves a state behind and, when it raised, the exception. *)
Definition step (S : Type) : Type := S → S * option exn.

Definition seq {S} (f g : step S) : step S :=
  λ s, match f s with
       | (s', None) => g s'
       | r => r
       end.

Definition pure {S} (f : S → S) : step S := λ s, (f s, None).

Definition throw {S} (e : exn) : step S := λ s, (s, Some e).

Declare Scope step_scope.
Delimit Scope step_scope with step.
Notation "f ;; g" := (seq f g) (at level 100, g at level 200, right associativity) : step_scope.

(** [for x in xs: body(x)] *)
Fixpoint for_each {S A} (xs : list A) (body : A → step S) : step S :=
  match xs with
  | [] => pure id
  | x :: rest => (body x ;; for_each rest body)%step
  end.

(** ** Validation *)

Definition item_fields : list string := ["item_name"; "description"; "item_group"; "brand"].

(** The inner loop of [validate_item_details], lines 128-129:
    [for key in item_fields: if not d.get(key): d.set(key, item.get(key))].
    [item] is [None] when the lookup found no Item; [item.get] then raises. *)
Fixpoint set_missing (item : option Row) (keys : list string) (d : Row) : Row * option exn :=
  match keys with
  | [] => (d, None)
  | key :: rest =>
      if truthy (row_get d key) then set_missing item rest d
      else match item with
           | None => (d, Some (AttributeError "'NoneType' object has no attribute 'get'"))
           | Some it => set_missing item rest (row_set d key (row_get it key))
           end
  end.

(** The loop over the line items, lines 123-129. The rows are mutated in
    place: what was filled in before an exception stays filled in. *)
Fixpoint validate_item_rows (db : DB) (rows : list Row) : list Row * option exn :=
  match rows with
  | [] => ([], None)
  | d :: rest =>
      if negb (truthy (row_get d "item_code")) then
        let r := validate_item_rows db rest in (d :: r.1, r.2)
      else
        let item := frappe.get_value_dict (tabItem db) (row_get d "item_code") item_fields in
        match set_missing item item_fields d with
        | (d', Some e) => (d' :: rest, Some e)
        | (d', None) => let r := validate_item_rows db rest in (d' :: r.1, r.2)
        end
  end.

(** [validate_item_details], lines 116-129 *)
Definition validate_item_details (db : DB) : step Opportunity :=
  λ self,
    match items self with
    | [] => (self, None)
    | rows => let r := validate_item_rows db rows in (set_items r.1 self, r.2)
    end.

(** [validate_cust_name], lines 109-114. Unpacking the [None] that the
    lookup of a missing Lead returns raises a TypeError. *)
Definition validate_cust_name (db : DB) : step Opportunity :=
  λ self,
    if truthy (field self "party_name")
       && bool_decide (field self "opportunity_from" = VStr "Customer") then
      (set_field "customer_name"
         (frappe.get_value_field (tabCustomer db) (field self "party_name") "customer_name")
         self, None)
    else if truthy (field self "party_name")
            && bool_decide (field self "opportunity_from" = VStr "Lead") then
      match frappe.get_value_tuple (tabLead db) (field self "party_name")
              ["lead_name"; "company_name"] with
      | Some [lead_name; company_name] =>
          (set_field "customer_name" (py_or company_name lead_name) self, None)
      | _ => (self, Some (TypeError "'NoneType' object is not iterable"))
      end
    else (self, None).

(** The signature of [validate_uom_is_integer(uom_field, qty_field)], which
    the controller inherits from the transaction base: it reads the store and
    the document and either passes or raises. *)
Definition uom_validator : Type := DB → Opportunity → string → string → option exn.

Section Controller.

Variable validate_uom_is_integer : uom_validator.

(** [validate], lines 29-35 *)
Definition validate (db : DB) : step Opportunity :=
  (validate_item_details db ;;
   validate_cust_name db ;;
   (λ self, (self, validate_uom_is_integer db self "uom" "qty")) ;;
   pure (λ self,
           if negb (truthy (field self "title")) then
             set_field "title" (field self "customer_name") self
           else self))%step.

(** [doc.save()] of the host framework, as far as the controller takes
    part in it: the document gets its timestamp, the [validate] hook runs,
    and the document is written to its table under its name ([flags]
    belong to the object in memory and are not stored). A failing hook
    leaves the store as it is. Permission, mandatory-field and link
    checks of the host are not part of the model. *)
Definition save (now : Z) : step (Opportunity * DB) :=
  λ st,
    match validate st.2 (set_modified now st.1) with
    | (self, Some e) => ((self, st.2), Some e)
    | (self, None) =>
        ((self,
          set_tabOpportunity (<[name self := clear_flags self]> (tabOpportunity st.2)) st.2),
         None)
    end.

(** [frappe.db.set(doc, fieldname, value)]: sets the field on the
    document and writes it through to the stored record at once. *)
Definition db_set (now : Z) (fieldname : string) (v : value) : step (Opportunity * DB) :=
  pure (λ st,
          (set_modified now (set_field fieldname v st.1),
           set_tabOpportunity
             (alter (λ o, set_modified now (set_field fieldname v o)) (name st.1)
                    (tabOpportunity st.2))
             st.2)).

(** [self.append('lost_reasons', reason)]: the dictionary becomes a child
    row of the document at the end of the table. *)
Definition init_child (self : Opportunity) (parentfield : string) (idx : nat) (d : Row) : Row :=
  let d := row_set d "parent" (VStr (name self)) in
  let d := row_set d "parenttype" (VStr "Opportunity") in
  let d := row_set d "parentfield" (VStr parentfield) in
  let d := if decide (row_get d "docstatus" = VNone) then row_set d "docstatus" (VInt 0) else d in
  if truthy (row_get d "idx") then d else row_set d "idx" (VInt (Z.of_nat idx)).

Definition append_lost_reason (reason : Row) : step (Opportunity * DB) :=
  pure (λ st,
          (set_lost_reasons
             (lost_reasons st.1
                ++ [init_child st.1 "lost_reasons" (S (length (lost_reasons st.1))) reason])
             st.1,
           st.2)).

(** [declare_enquiry_lost], lines 44-57 *)
Definition declare_enquiry_lost (now : Z) (lost_reasons_list : list Row)
    (detailed_reason : value) : step (Opportunity * DB) :=
  λ st,
    if negb (truthy_obj (has_active_quotation st.2 st.1)) then
      (db_set now "status" (VStr "Lost") ;;
       (if truthy detailed_reason then db_set now "order_lost_reason" detailed_reason
        else pure id) ;;
       for_each lost_reasons_list append_lost_reason ;;
       save now)%step st
    else
      throw (ValidationError "Cannot declare as lost, because Quotation has been made.") st.

(** [frappe.get_doc("Opportunity", name)] *)
Definition get_doc (db : DB) (n : string) : result Opportunity :=
  match tabOpportunity db !! n with
  | Some o => Ok (set_name n (clear_flags o))
  | None => Err (DoesNotExistError "Opportunity" n)
  end.

(** The body of the loop of [set_multiple_status], lines 251-253 *)
Definition set_status_of (now : Z) (status : value) (n : string) : step DB :=
  λ db,
    match get_doc db n with
    | Err e => (db, Some e)
    | Ok opp =>
        let r := save now (set_field "status" status opp, db) in (r.1.2, r.2)
    end.

(** [set_multiple_status], lines 247-253, on the decoded list of names *)
Definition set_multiple_status (now : Z) (names : list string) (status : value) : step DB :=
  for_each names (set_status_of now status).

(** [... or 15] on the configured number of days *)
Definition auto_close_after_days (db : DB) : Z :=
  match frappe.get_single_value (singles db) "Selling Settings" "close_opportunity_after_days" with
  | Some n => if (n =? 0)%Z then 15%Z else n
  | None => 15%Z
  end.

(** Time is counted in seconds; [CURDATE()] is the start of the current
    day and [DATE_SUB(d, INTERVAL n DAY)] goes back [n] days from it. *)
Definition seconds_per_day : Z := 86400.

Definition CURDATE (now : Z) : Z := (seconds_per_day * (now `div` seconds_per_day))%Z.

Definition DATE_SUB (d days : Z) : Z := (d - seconds_per_day * days)%Z.

(** The query of [auto_close_opportunity], lines 260-261 *)
Definition replied_before (db : DB) (limit : Z) : list string :=
  omap (λ no : string * Opportunity,
          if frappe.sql_eq (field no.2 "status") (VStr "Replied")
             && bool_decide (modified no.2 < limit)%Z
          then Some no.1 else None)
       (map_to_list (tabOpportunity db)).

(** The body of the loop of [auto_close_opportunity], lines 264-268 *)
Definition close_opportunity (now : Z) (n : string) : step DB :=
  λ db,
    match get_doc db n with
    | Err e => (db, Some e)
    | Ok doc =>
        let doc := set_field "status" (VStr "Closed") doc in
        let doc := set_flag "ignore_permissions" (VBool true) doc in
        let doc := set_flag "ignore_mandatory" (VBool true) doc in
        let r := save now (doc, db) in (r.1.2, r.2)
    end.

(** [auto_close_opportunity], lines 256-268 *)
Definition auto_close_opportunity (now : Z) : step DB :=
  λ db,
    let days := auto_close_after_days db in
    let opportunities := replied_before db (DATE_SUB (CURDATE now) days) in
    for_each opportunities (close_opportunity now) db.

End Controller.

(** ** Item details for the form *)

(** The rows of the query of [get_item_details], lines 134-138. *)
Definition item_details_rows (db : DB) (item_code : string) : list Row :=
  match tabItem db !! item_code with
  | Some r =>
      [list_to_map ((λ k, (k, row_get r k)) <$>
         ["item_name"; "stock_uom"; "image"; "description"; "item_group"; "brand"])]
  | None => []
  end.

(** Names bound at module level of [opportunity.py]: the imports, the two
    field names, the class and the functions. *)
Definition module_names : list string :=
  [ "unicode_literals"; "frappe"; "json"; "cstr"; "cint"; "get_fullname"; "_";
    "get_mapped_doc"; "get_exchange_rate"; "TransactionBase";
    "get_party_account_currency"; "link_communication_to_document";
    "subject_field"; "sender_field"; "Opportunity"; "get_item_details";
    "make_quotation"; "make_request_for_quotation"; "make_supplier_quotation";
    "set_multiple_status"; "auto_close_opportunity";
    "make_opportunity_from_communication" ].

(** Looking up a name that should hold a record: first among the local
    variables, then at module level, where nothing is a record. *)
Definition lookup_name (locals : gmap string Row) (x : string) : result Row :=
  match locals !! x with
  | Some d => Ok d
  | None =>
      if decide (x ∈ module_names) then
        Err (AttributeError ("'" +:+ x +:+ "' has no such attribute"))
      else Err (NameError ("name '" +:+ x +:+ "' is not defined"))
  end.

(** [get_item_details], lines 132-149. The local variables that hold a
    record are [item_details]; the parameter [item_code] holds text. *)
Definition get_item_details (db : DB) (item_code : string) : result Row :=
  let item_details := item_details_rows db item_code in
  let item_details := match item_details with d :: _ => d | [] => (∅ : Row) end in
  let locals : gmap string Row := {["item_details" := item_details]} in
  match lookup_name locals "item" with
  | Err e => Err e
  | Ok item =>
      Ok (list_to_map
            [ ("item_name", row_get item "item_name");
              ("description", row_get item "description");
              ("uom", row_get item "stock_uom");
              ("image", row_get item "image");
              ("item_group", row_get item "item_group");
              ("brand", row_get item "brand") ])
  end.

(** ** The Item Group dashboard *)

Module item_group_dashboard.

Record group : Type := mkGroup {
  label : string;
  items : list string
}.

Record data : Type := mkData {
  fieldname : string;
  transactions : list group
}.

(** [get_data], lines 4-17. [_] is the translation function of the host,
    applied to the two labels. *)
Definition get_data (_' : string → string) : data :=
  {| fieldname := "item_group";
     transactions :=
       [ {| label := _' "Items"; items := ["Item"] |};
         {| label := _' "Configuration"; items := ["Item Default Rule"] |} ] |}.

End item_group_dashboard.

(** ** Vocabulary of the properties and sample data *)

(** A submitted record linked to the Opportunity. *)
Definition submitted_for (self : Opportunity) (r : Row) : Prop :=
  row_get r "docstatus" = VInt 1 ∧ row_get r "opportunity" = VStr (name self).

Definition not_lost_or_closed (r : Row) : Prop :=
  row_get r "status" ≠ VStr "Lost" ∧ row_get r "status" ≠ VStr "Closed".

(** An active quotation of either kind exists for the Opportunity. *)
Definition active_quotation_exists (db : DB) (self : Opportunity) : Prop :=
  ∃ n r, (tabQuotation db !! n = Some r ∨ tabVehicleQuotation db !! n = Some r)
         ∧ submitted_for self r ∧ not_lost_or_closed r.

(** A lost quotation of either kind exists for the Opportunity. *)
Definition lost_quotation_exists (db : DB) (self : Opportunity) : Prop :=
  ∃ n r, (tabQuotation db !! n = Some r ∨ tabVehicleQuotation db !! n = Some r)
         ∧ submitted_for self r ∧ row_get r "status" = VStr "Lost".

(** No document is named by the empty string: naming a document never
    yields an empty name. *)
Definition named {A} (t : gmap string A) : Prop := t !! "" = None.

(** How [validate_item_details] may turn a line item [d] into [d']: every
    field is as it was, or it is one of [item_fields], the line has an item
    code, the field was empty, and it now holds what the Item record has. *)
Definition backfilled (db : DB) (d d' : Row) : Prop :=
  ∀ key, d' !! key = d !! key
         ∨ (key ∈ item_fields
            ∧ truthy (row_get d "item_code") = true
            ∧ truthy (row_get d key) = false
            ∧ ∃ item, frappe.by_name (tabItem db) (row_get d "item_code") = Some item
                      ∧ d' !! key = Some (row_get item key)).

(** When the run went through, every empty field of a line with an item
    code holds what the Item record has. *)
Definition filled (db : DB) (d d' : Row) : Prop :=
  truthy (row_get d "item_code") = true →
  ∀ key, key ∈ item_fields → truthy (row_get d key) = false →
         ∃ item, frappe.by_name (tabItem db) (row_get d "item_code") = Some item
                 ∧ d' !! key = Some (row_get item key).

(** Validation may fill in line items, the customer name and the title;
    everything else of the document stays. *)
Definition keeps (self self' : Opportunity) : Prop :=
  name self' = name self ∧ modified self' = modified self
  ∧ lost_reasons self' = lost_reasons self ∧ flags self' = flags self
  ∧ ∀ key, key ≠ "customer_name" → key ≠ "title" → field self' key = field self key.

(** Age of a record in whole calendar days. *)
Definition age_in_days (now : Z) (o : Opportunity) : Z :=
  (now `div` seconds_per_day - modified o `div` seconds_per_day)%Z.


Definition empty_db : DB := mkDB ∅ ∅ ∅ ∅ ∅ ∅ ∅ ∅.

Definition opp1 : Opportunity :=
  mkOpportunity "OPP-1" 1000 {["status" := VStr "Open"]} [] [] ∅.

Definition lost_row : Row :=
  list_to_map [("opportunity", VStr "OPP-1"); ("docstatus", VInt 1); ("status", VStr "Lost")].

Definition open_row : Row :=
  list_to_map [("opportunity", VStr "OPP-1"); ("docstatus", VInt 1); ("status", VStr "Open")].

(** One lost Quotation and one open Vehicle Quotation for OPP-1. *)
Definition db_lost_and_active : DB :=
  mkDB {["OPP-1" := opp1]} {["QTN-1" := lost_row]} ∅ {["VQ-1" := open_row]} ∅ ∅ ∅ ∅.

(** Only a lost Quotation for OPP-1. *)
Definition db_lost_only : DB :=
  mkDB {["OPP-1" := opp1]} {["QTN-1" := lost_row]} ∅ ∅ ∅ ∅ ∅ ∅.

Definition no_uom_check : uom_validator := λ _ _ _ _, None.

Definition reason1 : Row := {["lost_reason" := VStr "Price"]}.
Definition reason2 : Row := {["lost_reason" := VStr "Timing"]}.

(** An Opportunity with one line whose item code names no Item. *)
Definition line_missing : Row := {["item_code" := VStr "ITEM-404"]}.

Definition opp_missing_item : Opportunity :=
  mkOpportunity "OPP-2" 1000 {["status" := VStr "Open"]} [line_missing] [] ∅.

(** Day 100, one hour past midnight; O1 was last modified 20 days ago, O2 5
    days ago, both are Replied; no threshold is configured. *)
Definition day (n : Z) : Z := (86400 * n)%Z.

Definition sweep_now : Z := (day 100 + 3600)%Z.

Definition replied (n : string) (t : Z) : Opportunity :=
  mkOpportunity n t {["status" := VStr "Replied"; "title" := VStr "Deal"]} [] [] ∅.

Definition db_sweep : DB :=
  mkDB {["O1" := replied "O1" (day 80 + 7200); "O2" := replied "O2" (day 95 + 7200)]}
       ∅ ∅ ∅ ∅ ∅ ∅ ∅.

(** An ordered quotation exists for the Opportunity: a submitted Vehicle
    Quotation linked to it with status Ordered, or a Quotation Item that
    names the Opportunity as its previous document and belongs to a
    submitted Quotation with status Ordered. *)
Definition ordered_quotation_exists (db : DB) (self : Opportunity) : Prop :=
  (∃ n r, tabVehicleQuotation db !! n = Some r
          ∧ submitted_for self r ∧ row_get r "status" = VStr "Ordered")
  ∨ (∃ n qi parent q,
        tabQuotationItem db !! n = Some qi
        ∧ row_get qi "parent" = VStr parent
        ∧ tabQuotation db !! parent = Some q
        ∧ row_get q "docstatus" = VInt 1
        ∧ row_get qi "prevdoc_docname" = VStr (name self)
        ∧ row_get q "status" = VStr "Ordered").

(** A line item on which the backfill cannot fail: it has no item code, or
    its Item exists, or none of the four fields is empty. *)
Definition line_passes (db : DB) (d : Row) : Prop :=
  truthy (row_get d "item_code") = true →
  frappe.by_name (tabItem db) (row_get d "item_code") = None →
  ∀ key, key ∈ item_fields → truthy (row_get d key) = true.

Definition ordered_quotation : Row :=
  list_to_map [("docstatus", VInt 1); ("status", VStr "Ordered")].

Definition ordered_line : Row :=
  list_to_map [("parent", VStr "QTN-9"); ("prevdoc_docname", VStr "OPP-1")].

(** An ordered Quotation one of whose lines comes from OPP-1. *)
Definition db_ordered : DB :=
  mkDB {["OPP-1" := opp1]} {["QTN-9" := ordered_quotation]} {["QI-1" := ordered_line]}
       ∅ ∅ ∅ ∅ ∅.

(** The Lead record the party name of a document refers to, if there is one. *)
Definition lead_record (db : DB) (self : Opportunity) : option Row :=
  frappe.by_name (tabLead db) (field self "party_name").

Definition lead1 : Row :=
  list_to_map [("lead_name", VStr "Ann"); ("company_name", VStr "Acme")].

Definition db_lead : DB := mkDB ∅ ∅ ∅ ∅ ∅ ∅ {["LEAD-1" := lead1]} ∅.

Definition opp_from_lead (party : string) : Opportunity :=
  mkOpportunity "OPP-3" 1000
    {["status" := VStr "Open"; "opportunity_from" := VStr "Lead"; "party_name" := VStr party]}
    [] [] ∅.

(** The store of the sweep example with the threshold configured as 0. *)
Definition db_zero_threshold : DB :=
  mkDB (tabOpportunity db_sweep) ∅ ∅ ∅ ∅ ∅ ∅
       {[("Selling Settings", "close_opportunity_after_days") := 0%Z]}.

(** OPP-2, with its line that names no Item, stored. *)
Definition db_missing_item : DB :=
  mkDB {["OPP-2" := opp_missing_item]} ∅ ∅ ∅ ∅ ∅ ∅ ∅.

(** * Properties *)

(** ** What the status predicates are about *)

(** ** Queries *)

Lemma sql_eq_true a b : b ≠ VNone → frappe.sql_eq a b = true ↔ a = b.
Proof.
  intros Hb. unfold frappe.sql_eq.
  destruct a, b; try done; rewrite bool_decide_eq_true; done.
Qed.

Lemma not_in_lost_closed (r : Row) :
  negb (existsb (frappe.sql_eq (frappe.ifnull (row_get r "status"))) [VStr "Lost"; VStr "Closed"])
    = true ↔ not_lost_or_closed r.
Proof.
  unfold not_lost_or_closed. rewrite negb_true_iff. cbn [existsb].
  rewrite !orb_false_iff.
  destruct (row_get r "status") as [|b|z|s]; cbn [frappe.ifnull frappe.sql_eq];
    rewrite ?bool_decide_eq_false; naive_solver.
Qed.

Lemma select_nonempty (t : gmap string Row) (cond : Row → bool) :
  frappe.select t cond ≠ [] ↔ ∃ n r, t !! n = Some r ∧ cond r = true.
Proof.
  unfold frappe.select. split.
  - intros Hne. destruct (filter _ _) as [|[n r] l] eqn:E; [done|].
    assert (Hin : (n, r) ∈ filter (λ nr : string * Row, Is_true (cond nr.2)) (map_to_list t))
      by (rewrite E; left).
    apply list_elem_of_filter in Hin as [Hc Hin]. apply elem_of_map_to_list in Hin.
    exists n, r. split; [done|]. by apply Is_true_true.
  - intros (n & r & Hl & Hc) E.
    assert (Hin : (n, r) ∈ filter (λ nr : string * Row, Is_true (cond nr.2)) (map_to_list t)).
    { apply list_elem_of_filter. split; [by apply Is_true_true|by apply elem_of_map_to_list]. }
    rewrite E in Hin. by apply not_elem_of_nil in Hin.
Qed.

Lemma select_names (t : gmap string Row) (cond : Row → bool) nr :
  nr ∈ frappe.select t cond → t !! nr.1 = Some nr.2.
Proof.
  unfold frappe.select. intros Hin. apply list_elem_of_filter in Hin as [_ Hin].
  destruct nr. by apply elem_of_map_to_list.
Qed.

Lemma get_value_truthy (t : gmap string Row) filters :
  named t →
  truthy (frappe.get_value t filters) = true ↔
  ∃ n r, t !! n = Some r ∧ frappe.matches filters r = true.
Proof.
  intros Hnamed. rewrite <- select_nonempty. unfold frappe.get_value.
  destruct (frappe.select t (frappe.matches filters)) as [|[n r] l] eqn:E; [done|].
  assert (Hl : t !! n = Some r).
  { apply (select_names t (frappe.matches filters) (n, r)). rewrite E. left. }
  split; [done|]. intros _. cbn. destruct n; [|done].
  unfold named in Hnamed. congruence.
Qed.

Lemma get_all_truthy (t : gmap string Row) filters :
  truthy_obj (Rows (frappe.get_all t filters)) = true ↔
  ∃ n r, t !! n = Some r ∧ frappe.matches filters r = true.
Proof.
  rewrite <- select_nonempty. unfold frappe.get_all.
  destruct (frappe.select t (frappe.matches filters)); cbn; split; done.
Qed.

Lemma obj_or_truthy a b :
  truthy_obj (obj_or a b) = true ↔ truthy_obj a = true ∨ truthy_obj b = true.
Proof. unfold obj_or. destruct (truthy_obj a) eqn:E; rewrite ?E; naive_solver. Qed.

Lemma active_filters_vehicle self (r : Row) :
  frappe.matches
    [("opportunity", frappe.Eq (VStr (name self)));
     ("docstatus", frappe.Eq (VInt 1));
     ("status", frappe.NotIn [VStr "Lost"; VStr "Closed"])] r = true
  ↔ submitted_for self r ∧ not_lost_or_closed r.
Proof.
  unfold frappe.matches, submitted_for. cbn [forallb frappe.holds fst snd].
  rewrite !andb_true_iff, not_in_lost_closed, !sql_eq_true by done. naive_solver.
Qed.

Lemma active_filters_quotation self (r : Row) :
  frappe.matches
    [("opportunity", frappe.Eq (VStr (name self)));
     ("status", frappe.NotIn [VStr "Lost"; VStr "Closed"]);
     ("docstatus", frappe.Eq (VInt 1))] r = true
  ↔ submitted_for self r ∧ not_lost_or_closed r.
Proof.
  unfold frappe.matches, submitted_for. cbn [forallb frappe.holds fst snd].
  rewrite !andb_true_iff, not_in_lost_closed, !sql_eq_true by done. naive_solver.
Qed.

(** [has_active_quotation] is truthy exactly when an active quotation exists. *)
Lemma has_active_quotation_iff db self :
  named (tabVehicleQuotation db) →
  truthy_obj (has_active_quotation db self) = true ↔ active_quotation_exists db self.
Proof.
  intros Hnamed. unfold has_active_quotation, active_quotation_exists.
  rewrite obj_or_truthy, get_all_truthy. cbn [truthy_obj].
  rewrite get_value_truthy by done.
  setoid_rewrite active_filters_vehicle. setoid_rewrite active_filters_quotation.
  naive_solver.
Qed.

Lemma lost_filters_vehicle self (r : Row) :
  frappe.matches
    [("opportunity", frappe.Eq (VStr (name self)));
     ("docstatus", frappe.Eq (VInt 1));
     ("status", frappe.Eq (VStr "Lost"))] r = true
  ↔ submitted_for self r ∧ row_get r "status" = VStr "Lost".
Proof.
  unfold frappe.matches, submitted_for. cbn [forallb frappe.holds fst snd].
  rewrite !andb_true_iff, !sql_eq_true by done. naive_solver.
Qed.

Lemma lost_rows_truthy db self :
  truthy_obj (Rows (lost_quotation_rows db (name self))) = true ↔
  ∃ n r, tabQuotation db !! n = Some r ∧ submitted_for self r ∧ row_get r "status" = VStr "Lost".
Proof.
  unfold lost_quotation_rows, submitted_for.
  transitivity (frappe.select (tabQuotation db)
      (λ r, frappe.sql_eq (row_get r "docstatus") (VInt 1)
            && frappe.sql_eq (row_get r "opportunity") (VStr (name self))
            && frappe.sql_eq (row_get r "status") (VStr "Lost")) ≠ []).
  { destruct (frappe.select _ _); cbn; split; done. }
  rewrite select_nonempty.
  setoid_rewrite andb_true_iff. setoid_rewrite andb_true_iff.
  setoid_rewrite sql_eq_true; [|done..]. naive_solver.
Qed.

(** The guard of [has_lost_quotation] is truthy exactly when a lost
    quotation exists. *)
Lemma lost_guard_iff db self :
  named (tabVehicleQuotation db) →
  truthy_obj (obj_or (Rows (lost_quotation_rows db (name self)))
                (Scalar (frappe.get_value (tabVehicleQuotation db)
                   [("opportunity", frappe.Eq (VStr (name self)));
                    ("docstatus", frappe.Eq (VInt 1));
                    ("status", frappe.Eq (VStr "Lost"))]))) = true
  ↔ lost_quotation_exists db self.
Proof.
  intros Hnamed. unfold lost_quotation_exists.
  rewrite obj_or_truthy, lost_rows_truthy. cbn [truthy_obj].
  rewrite get_value_truthy by done.
  setoid_rewrite lost_filters_vehicle. naive_solver.
Qed.

(** C1. When both a lost quotation and an active quotation exist for an
    Opportunity, [has_lost_quotation] returns [False]: active takes
    precedence over lost. *)
Theorem has_lost_quotation_active_precedence db self :
  named (tabVehicleQuotation db) →
  lost_quotation_exists db self →
  active_quotation_exists db self →
  has_lost_quotation db self = VBool false.
Proof.
  intros Hnamed Hlost Hactive. unfold has_lost_quotation.
  apply (lost_guard_iff db self Hnamed) in Hlost.
  apply (has_active_quotation_iff db self Hnamed) in Hactive.
  cbv zeta. rewrite Hlost, Hactive. done.
Qed.

(** C2. [has_active_quotation] returns a true value if and only if a
    submitted Quotation or Vehicle Quotation linked to the Opportunity exists
    whose status is neither Lost nor Closed. *)
Theorem has_active_quotation_correct db self :
  named (tabVehicleQuotation db) →
  truthy_obj (has_active_quotation db self) = true ↔ active_quotation_exists db self.
Proof. apply has_active_quotation_iff. Qed.

(** ** Backfilling the line items *)

Lemma row_get_set_eq (d : Row) key v : row_get (row_set d key v) key = v.
Proof. unfold row_get, row_set. by rewrite lookup_insert_eq. Qed.

Lemma row_get_set_ne (d : Row) key key' v :
  key ≠ key' → row_get (row_set d key v) key' = row_get d key'.
Proof. intros. unfold row_get, row_set. by rewrite lookup_insert_ne. Qed.

Lemma projection_get (r : Row) (keys : list string) key :
  key ∈ keys →
  row_get (list_to_map ((λ k, (k, row_get r k)) <$> keys)) key = row_get r key.
Proof.
  induction keys as [|k keys IH]; intros Hin; [by apply not_elem_of_nil in Hin|].
  rewrite fmap_cons, list_to_map_cons.
  destruct (decide (k = key)) as [->|Hne].
  - unfold row_get at 1. by rewrite lookup_insert_eq.
  - unfold row_get at 1. rewrite lookup_insert_ne by done. apply IH.
    apply elem_of_cons in Hin as [?|?]; [congruence|done].
Qed.

Lemma get_value_dict_Some (t : gmap string Row) v keys it :
  frappe.get_value_dict t v keys = Some it →
  ∃ r, frappe.by_name t v = Some r ∧ ∀ key, key ∈ keys → row_get it key = row_get r key.
Proof.
  unfold frappe.get_value_dict. destruct (frappe.by_name t v) as [r|]; [|done].
  cbn. intros [= <-]. exists r. split; [done|]. intros. by apply projection_get.
Qed.

Lemma set_missing_spec item keys : ∀ d d' e,
  set_missing item keys d = (d', e) →
  ∀ key, d' !! key = d !! key
         ∨ (truthy (row_get d key) = false ∧ key ∈ keys
            ∧ ∃ it, item = Some it ∧ d' !! key = Some (row_get it key)).
Proof.
  induction keys as [|k keys IH]; intros d d' e Hrun key; cbn in Hrun.
  - left. congruence.
  - destruct (truthy (row_get d k)) eqn:Hk.
    + destruct (IH _ _ _ Hrun key) as [?|(? & ? & ?)]; [by left|].
      right. split_and!; [done|by right|done].
    + destruct item as [it|]; [|left; congruence].
      destruct (decide (k = key)) as [->|Hne].
      * right. split_and!; [done|by left|]. exists it. split; [done|].
        destruct (IH _ _ _ Hrun key) as [->|(_ & _ & it' & [= <-] & ?)]; [|done].
        unfold row_set. by rewrite lookup_insert_eq.
      * destruct (IH _ _ _ Hrun key) as [Heq|(Hf & ? & ?)].
        -- left. rewrite Heq. unfold row_set. by rewrite lookup_insert_ne.
        -- right. rewrite row_get_set_ne in Hf by done. split_and!; [done|by right|done].
Qed.

Lemma set_missing_complete item keys : ∀ d d',
  set_missing item keys d = (d', None) →
  ∀ key, key ∈ keys → truthy (row_get d key) = false →
         ∃ it, item = Some it ∧ d' !! key = Some (row_get it key).
Proof.
  induction keys as [|k keys IH]; intros d d' Hrun key Hin Hf; cbn in Hrun.
  - by apply not_elem_of_nil in Hin.
  - destruct (truthy (row_get d k)) eqn:Hk.
    + apply elem_of_cons in Hin as [->|Hin]; [congruence|]. by eapply IH.
    + destruct item as [it|]; [|done].
      destruct (decide (k = key)) as [->|Hne].
      * exists it. split; [done|].
        destruct (set_missing_spec _ _ _ _ _ Hrun key) as [->|(_ & _ & it' & [= <-] & ?)]; [|done].
        unfold row_set. by rewrite lookup_insert_eq.
      * apply elem_of_cons in Hin as [->|Hin]; [done|].
        eapply IH; [done..|]. by rewrite row_get_set_ne.
Qed.

(** A second pass over the keys changes nothing and ends the same way. *)
Lemma set_missing_idempotent item keys : ∀ d d' e,
  set_missing item keys d = (d', e) → set_missing item keys d' = (d', e).
Proof.
  induction keys as [|k keys IH]; intros d d' e Hrun; cbn in Hrun |- *.
  - congruence.
  - destruct (truthy (row_get d k)) eqn:Hk.
    + assert (Hsame : row_get d' k = row_get d k).
      { destruct (set_missing_spec _ _ _ _ _ Hrun k) as [Heq|(? & _)]; [|congruence].
        unfold row_get. by rewrite Heq. }
      rewrite Hsame, Hk. by eapply IH.
    + destruct item as [it|].
      * assert (Hnow : d' !! k = Some (row_get it k)).
        { destruct (set_missing_spec _ _ _ _ _ Hrun k) as [->|(_ & _ & it' & [= <-] & ?)]; [|done].
          unfold row_set. by rewrite lookup_insert_eq. }
        destruct (truthy (row_get d' k)); [by eapply IH|].
        unfold row_set. rewrite (insert_id _ _ _ Hnow). by eapply IH.
      * injection Hrun as <- <-. by rewrite Hk.
Qed.

Lemma item_code_not_item_field : "item_code" ∉ item_fields.
Proof. unfold item_fields. set_solver. Qed.

Lemma set_missing_item_code item d d' e :
  set_missing item item_fields d = (d', e) → row_get d' "item_code" = row_get d "item_code".
Proof.
  intros Hrun.
  destruct (set_missing_spec _ _ _ _ _ Hrun "item_code") as [Heq|(_ & Hin & _)].
  - unfold row_get. by rewrite Heq.
  - by apply item_code_not_item_field in Hin.
Qed.

Lemma set_missing_backfilled db d d' e :
  truthy (row_get d "item_code") = true →
  set_missing (frappe.get_value_dict (tabItem db) (row_get d "item_code") item_fields)
    item_fields d = (d', e) →
  backfilled db d d'.
Proof.
  intros Hcode Hrun key.
  destruct (set_missing_spec _ _ _ _ _ Hrun key) as [?|(Hf & Hin & it & Hit & Hnew)]; [by left|].
  right. apply get_value_dict_Some in Hit as (r & Hr & Hproj).
  split_and!; [done..|]. exists r. split; [done|]. by rewrite <- Hproj.
Qed.

Lemma set_missing_filled db d d' :
  set_missing (frappe.get_value_dict (tabItem db) (row_get d "item_code") item_fields)
    item_fields d = (d', None) →
  filled db d d'.
Proof.
  intros Hrun _ key Hin Hf.
  destruct (set_missing_complete _ _ _ _ Hrun key Hin Hf) as (it & Hit & Hnew).
  apply get_value_dict_Some in Hit as (r & Hr & Hproj).
  exists r. split; [done|]. by rewrite <- Hproj.
Qed.

Lemma backfilled_refl db d : backfilled db d d.
Proof. intros key. by left. Qed.

Lemma validate_item_rows_cons db d rest :
  validate_item_rows db (d :: rest) =
  if negb (truthy (row_get d "item_code")) then
    ((d :: (validate_item_rows db rest).1), (validate_item_rows db rest).2)
  else
    match set_missing (frappe.get_value_dict (tabItem db) (row_get d "item_code") item_fields)
            item_fields d with
    | (d', Some e) => (d' :: rest, Some e)
    | (d', None) => ((d' :: (validate_item_rows db rest).1), (validate_item_rows db rest).2)
    end.
Proof. reflexivity. Qed.

Lemma validate_item_rows_backfilled db rows :
  Forall2 (backfilled db) rows (validate_item_rows db rows).1.
Proof.
  induction rows as [|d rest IH]; [constructor|].
  rewrite validate_item_rows_cons.
  destruct (truthy (row_get d "item_code")) eqn:Hcode; cbn [negb].
  - destruct (set_missing _ item_fields d) as [d' [e|]] eqn:Hrun; cbn [fst].
    + constructor; [by eapply set_missing_backfilled|].
      apply Forall2_same_length_lookup_2; [done|]. intros i x y Hx Hy.
      assert (x = y) as -> by congruence. apply backfilled_refl.
    + constructor; [by eapply set_missing_backfilled|done].
  - constructor; [apply backfilled_refl|done].
Qed.

Lemma validate_item_rows_filled db rows :
  (validate_item_rows db rows).2 = None →
  Forall2 (filled db) rows (validate_item_rows db rows).1.
Proof.
  induction rows as [|d rest IH]; [constructor|].
  rewrite validate_item_rows_cons.
  destruct (truthy (row_get d "item_code")) eqn:Hcode; cbn [negb].
  - destruct (set_missing _ item_fields d) as [d' [e|]] eqn:Hrun; cbn [fst snd]; [done|].
    intros Hok. constructor; [by apply set_missing_filled|by apply IH].
  - cbn [fst snd]. intros Hok. constructor; [|by apply IH]. intros Hc. congruence.
Qed.

Lemma validate_item_rows_idempotent db rows :
  validate_item_rows db (validate_item_rows db rows).1 = validate_item_rows db rows.
Proof.
  induction rows as [|d rest IH]; [done|].
  rewrite validate_item_rows_cons.
  destruct (truthy (row_get d "item_code")) eqn:Hcode; cbn [negb].
  - destruct (set_missing _ item_fields d) as [d' e] eqn:Hrun.
    pose proof (set_missing_item_code _ _ _ _ Hrun) as Hsame.
    rewrite <- Hsame in Hrun. apply set_missing_idempotent in Hrun.
    destruct e as [e|]; cbn [fst snd]; rewrite validate_item_rows_cons, Hsame, Hcode;
      cbn [negb]; rewrite <- Hsame, Hrun; [done|].
    rewrite IH. done.
  - cbn [fst snd]. rewrite validate_item_rows_cons, Hcode. cbn [negb]. rewrite IH. done.
Qed.

Lemma validate_item_details_idempotent db self :
  validate_item_details db (validate_item_details db self).1 = validate_item_details db self.
Proof.
  unfold validate_item_details. destruct (items self) as [|d rest] eqn:Hitems.
  - cbn. by rewrite Hitems.
  - pose proof (validate_item_rows_backfilled db (d :: rest)) as Hlen.
    apply Forall2_length in Hlen.
    cbn [fst snd set_items items].
    destruct ((validate_item_rows db (d :: rest)).1) as [|d' rest'] eqn:Hrows; [done|].
    rewrite <- Hrows, validate_item_rows_idempotent. rewrite Hrows. done.
Qed.

(** C5. The backfill of the line items touches nothing but the line items;
    in a line item a field changes only if it is one of item_name,
    description, item_group and brand, was empty, the line has an item code,
    and the new value is the one of the referenced Item record, so a field
    that has a value is never changed; when the run goes through, every such
    empty field is filled; and a second run on the result changes nothing
    and ends as the first did. *)
Theorem validate_item_details_backfill_idempotent db self :
  let r := validate_item_details db self in
  name r.1 = name self ∧ modified r.1 = modified self ∧ fields r.1 = fields self
  ∧ lost_reasons r.1 = lost_reasons self ∧ flags r.1 = flags self
  ∧ Forall2 (backfilled db) (items self) (items r.1)
  ∧ (r.2 = None → Forall2 (filled db) (items self) (items r.1))
  ∧ validate_item_details db r.1 = r.
Proof.
  cbv zeta. split_and!; try (unfold validate_item_details; by destruct (items self)).
  - unfold validate_item_details. destruct (items self) as [|d rest] eqn:Hitems.
    + cbn. rewrite Hitems. constructor.
    + cbn [fst set_items items]. apply validate_item_rows_backfilled.
  - unfold validate_item_details. destruct (items self) as [|d rest] eqn:Hitems.
    + cbn. rewrite Hitems. constructor.
    + cbn [fst snd set_items items]. apply validate_item_rows_filled.
  - apply validate_item_details_idempotent.
Qed.

(** ** A line item whose Item record is missing *)

(** The lookup itself answers [None] for a name no Item has. *)
Lemma get_value_dict_missing (t : gmap string Row) v keys :
  frappe.by_name t v = None → frappe.get_value_dict t v keys = None.
Proof. unfold frappe.get_value_dict. by intros ->. Qed.

Lemma set_missing_None keys : ∀ d,
  (∃ key, key ∈ keys ∧ truthy (row_get d key) = false) →
  set_missing None keys d = (d, Some (AttributeError "'NoneType' object has no attribute 'get'")).
Proof.
  induction keys as [|k keys IH]; intros d (key & Hin & Hf); cbn.
  - by apply not_elem_of_nil in Hin.
  - destruct (truthy (row_get d k)) eqn:Hk; [|done].
    apply IH. exists key. split; [|done].
    apply elem_of_cons in Hin as [->|?]; [congruence|done].
Qed.

(** C8. A line item that has an item code naming no Item record and at
    least one of the four fields empty: the lookup yields [None], and
    [validate_item_details] does not complete but raises an AttributeError
    on that [None], leaving the document as it was. *)
Theorem validate_item_details_missing_item db self d rest :
  items self = d :: rest →
  truthy (row_get d "item_code") = true →
  frappe.by_name (tabItem db) (row_get d "item_code") = None →
  (∃ key, key ∈ item_fields ∧ truthy (row_get d key) = false) →
  frappe.get_value_dict (tabItem db) (row_get d "item_code") item_fields = None
  ∧ validate_item_details db self =
      (set_items (d :: rest) self,
       Some (AttributeError "'NoneType' object has no attribute 'get'")).
Proof.
  intros Hitems Hcode Hmissing Hempty.
  pose proof (get_value_dict_missing _ _ item_fields Hmissing) as Hnone.
  split; [done|].
  unfold validate_item_details. rewrite Hitems, validate_item_rows_cons, Hcode, Hnone.
  cbn [negb]. by rewrite (set_missing_None _ _ Hempty).
Qed.

(** ** Item details *)

Lemma item_not_bound : "item" ∉ module_names.
Proof. unfold module_names. set_solver. Qed.

(** C4. [get_item_details] never returns the record of item fields: its
    result is built from the name [item], which is bound neither in the
    function nor in the module, so every call raises a NameError, whether or
    not an Item with that code exists. *)
Theorem get_item_details_raises db item_code :
  get_item_details db item_code = Err (NameError "name 'item' is not defined").
Proof.
  unfold get_item_details, lookup_name.
  rewrite lookup_singleton_ne by done.
  rewrite decide_False by apply item_not_bound. done.
Qed.

(** ** The dashboard *)

(** C9. [get_data] takes no input and has no failing path: it is the fixed
    mapping with linking field item_group and the two groups Items, listing
    Item, and Configuration, listing Item Default Rule; the labels are the
    translations of these two words, the words themselves when nothing is
    translated. *)
Theorem get_data_fixed (tr : string → string) :
  item_group_dashboard.fieldname (item_group_dashboard.get_data tr) = "item_group"
  ∧ (λ g, (item_group_dashboard.label g, item_group_dashboard.items g))
      <$> item_group_dashboard.transactions (item_group_dashboard.get_data tr)
    = [ (tr "Items", ["Item"]); (tr "Configuration", ["Item Default Rule"]) ]
  ∧ item_group_dashboard.get_data id
    = item_group_dashboard.mkData "item_group"
        [ item_group_dashboard.mkGroup "Items" ["Item"];
          item_group_dashboard.mkGroup "Configuration" ["Item Default Rule"] ].
Proof. done. Qed.

(** ** The status rules *)

(** The scan yields the target of the first rule that holds. *)
Lemma first_match_Some db self rules s :
  first_match db self rules = Some s ↔
  ∃ (before : list (string * string)) cond after,
    rules = (before ++ (s, cond) :: after)%list
    ∧ rule_holds db self cond = true
    ∧ Forall (λ rule, rule_holds db self rule.2 = false) before.
Proof.
  induction rules as [|[t c] rules IH]; cbn.
  - split; [done|]. intros (before & ? & ? & Heq & _). by destruct before.
  - destruct (rule_holds db self c) eqn:Hc.
    + split.
      * intros [= <-]. exists [], c, rules. by split_and!.
      * intros ([|[t' c'] before] & cond & after & Heq & Hh & Hb).
        -- cbn in Heq. congruence.
        -- cbn in Heq. injection Heq as -> -> _. apply Forall_cons in Hb as [Hb _].
           cbn in Hb. congruence.
    + rewrite IH. split.
      * intros (before & cond & after & -> & Hh & Hb).
        exists ((t, c) :: before), cond, after. split_and!; [done..|].
        by constructor.
      * intros ([|[t' c'] before] & cond & after & Heq & Hh & Hb).
        -- cbn in Heq. injection Heq as -> -> _. congruence.
        -- cbn in Heq. injection Heq as -> -> ->. apply Forall_cons in Hb as [_ Hb].
           by exists before, cond, after.
Qed.

Lemma rule_eval_lost db self :
  rule_holds db self "eval:self.status=='Lost'" = bool_decide (field self "status" = VStr "Lost").
Proof. reflexivity. Qed.

Lemma rule_eval_closed db self :
  rule_holds db self "eval:self.status=='Closed'"
  = bool_decide (field self "status" = VStr "Closed").
Proof. reflexivity. Qed.

Lemma rule_has_lost db self :
  rule_holds db self "has_lost_quotation" = truthy (has_lost_quotation db self).
Proof. reflexivity. Qed.

Lemma rule_has_active db self :
  rule_holds db self "has_active_quotation" = truthy_obj (has_active_quotation db self).
Proof. reflexivity. Qed.

Lemma rule_has_ordered db self :
  rule_holds db self "has_ordered_quotation" = truthy_obj (has_ordered_quotation db self).
Proof. reflexivity. Qed.

(** C7. The rule list of the Opportunity is, in this order: Lost when the
    status is Lost, Lost when a lost quotation exists, Quotation when an
    active quotation exists, Converted when an ordered quotation exists,
    Closed when the status is Closed; scanned first match first, the derived
    status follows these five tests in that order. *)
Theorem status_rules_in_order db self :
  status_map self =
    [ ("Lost", "eval:self.status=='Lost'");
      ("Lost", "has_lost_quotation");
      ("Quotation", "has_active_quotation");
      ("Converted", "has_ordered_quotation");
      ("Closed", "eval:self.status=='Closed'") ]
  ∧ derive_status db self =
      if bool_decide (field self "status" = VStr "Lost") then VStr "Lost"
      else if truthy (has_lost_quotation db self) then VStr "Lost"
      else if truthy_obj (has_active_quotation db self) then VStr "Quotation"
      else if truthy_obj (has_ordered_quotation db self) then VStr "Converted"
      else if bool_decide (field self "status" = VStr "Closed") then VStr "Closed"
      else field self "status".
Proof.
  split; [done|].
  unfold derive_status, status_map, first_match. cbn [fst snd].
  rewrite rule_eval_lost, rule_has_lost, rule_has_active, rule_has_ordered, rule_eval_closed.
  repeat match goal with |- context [if ?b then _ else _] => destruct b; try done end.
Qed.

(** ** Declaring an Opportunity lost *)

Lemma seq_pure {S} (f : S → S) (g : step S) s : (pure f ;; g)%step s = g (f s).
Proof. done. Qed.

Lemma for_each_cons {S A} (x : A) xs (body : A → step S) :
  for_each (x :: xs) body = (body x ;; for_each xs body)%step.
Proof. done. Qed.

(** Appending the reasons adds one row per reason and touches nothing else. *)
Lemma append_lost_reasons reasons : ∀ st,
  ∃ self' extra,
    for_each reasons append_lost_reason st = ((self', st.2), None)
    ∧ name self' = name st.1 ∧ modified self' = modified st.1
    ∧ fields self' = fields st.1 ∧ items self' = items st.1 ∧ flags self' = flags st.1
    ∧ lost_reasons self' = (lost_reasons st.1 ++ extra)%list
    ∧ length extra = length reasons.
Proof.
  induction reasons as [|reason reasons IH]; intros [self db].
  - exists self, []. cbn. by rewrite app_nil_r.
  - rewrite for_each_cons. unfold append_lost_reason at 1. rewrite seq_pure.
    destruct (IH (set_lost_reasons
                    (lost_reasons self
                       ++ [init_child self "lost_reasons" (S (length (lost_reasons self))) reason])%list
                    self, db))
      as (self' & extra & Hrun & ? & ? & ? & ? & ? & Hl & Hlen).
    exists self', (init_child self "lost_reasons" (S (length (lost_reasons self))) reason :: extra).
    cbn [fst snd] in *. rewrite Hrun. split_and!; try done.
    + rewrite Hl. cbn. by rewrite <- app_assoc.
    + cbn. by rewrite Hlen.
Qed.

Lemma not_truthy_obj_iff (P : Prop) o : (truthy_obj o = true ↔ P) → ¬ P → truthy_obj o = false.
Proof. intros Hiff Hn. destruct (truthy_obj o); [|done]. exfalso. by apply Hn, Hiff. Qed.

Lemma declare_enquiry_lost_active (check : uom_validator) now reasons detailed self db :
  truthy_obj (has_active_quotation db self) = true →
  declare_enquiry_lost check now reasons detailed (self, db)
  = ((self, db),
     Some (ValidationError "Cannot declare as lost, because Quotation has been made.")).
Proof. intros Hactive. unfold declare_enquiry_lost. cbn [fst snd]. by rewrite Hactive. Qed.

(** C10. When an active quotation exists, [declare_enquiry_lost] raises its
    error before anything is changed: the document, with its status, its
    order_lost_reason and its lost_reasons, and the store are exactly as
    they were, so nothing has been set or saved. *)
Theorem declare_enquiry_lost_rejects_unchanged
    (check : uom_validator) now reasons detailed self db :
  named (tabVehicleQuotation db) →
  active_quotation_exists db self →
  declare_enquiry_lost check now reasons detailed (self, db)
  = ((self, db),
     Some (ValidationError "Cannot declare as lost, because Quotation has been made.")).
Proof.
  intros Hnamed Hactive. apply declare_enquiry_lost_active.
  by apply has_active_quotation_iff.
Qed.

(** C3. [declare_enquiry_lost] fails with the user-facing error when an
    active quotation exists. Otherwise the document it hands to [save] has
    status Lost, carries the detailed reason when one was given, and has the
    supplied entries appended to its lost_reasons, one row per entry, so
    that the list is longer by exactly their number; the rest of the
    document is as before. *)
Theorem declare_enquiry_lost_outcome
    (check : uom_validator) now reasons detailed self db :
  named (tabVehicleQuotation db) →
  (active_quotation_exists db self →
   (declare_enquiry_lost check now reasons detailed (self, db)).2
   = Some (ValidationError "Cannot declare as lost, because Quotation has been made."))
  ∧ (¬ active_quotation_exists db self →
     ∃ self' db' extra,
       declare_enquiry_lost check now reasons detailed (self, db) = save check now (self', db')
       ∧ field self' "status" = VStr "Lost"
       ∧ field self' "order_lost_reason"
         = (if truthy detailed then detailed else field self "order_lost_reason")
       ∧ lost_reasons self' = (lost_reasons self ++ extra)%list
       ∧ length extra = length reasons
       ∧ length (lost_reasons self') = (length (lost_reasons self) + length reasons)%nat
       ∧ name self' = name self ∧ items self' = items self).
Proof.
  intros Hnamed. split.
  - intros Hactive. rewrite declare_enquiry_lost_active; [done|].
    by apply has_active_quotation_iff.
  - intros Hnone.
    pose proof (not_truthy_obj_iff _ _ (has_active_quotation_iff db self Hnamed) Hnone) as Hf.
    unfold declare_enquiry_lost. cbn [fst snd]. rewrite Hf. cbn [negb].
    unfold db_set at 1. rewrite seq_pure. cbn [fst snd].
    set (db1 := set_tabOpportunity _ db).
    set (self1 := set_modified now (set_field "status" (VStr "Lost") self)).
    destruct (truthy detailed) eqn:Hd.
    + unfold db_set. rewrite seq_pure. cbn [fst snd].
      set (db2 := set_tabOpportunity _ db1).
      set (self2 := set_modified now (set_field "order_lost_reason" detailed self1)).
      destruct (append_lost_reasons reasons (self2, db2))
        as (self' & extra & Hrun & Hn & _ & Hfields & Hi & _ & Hl & Hlen).
      exists self', db2, extra. cbn [fst snd] in *.
      unfold seq. rewrite Hrun.
      split_and!; try done.
      * unfold field. rewrite Hfields. subst self2 self1.
        cbn [fields set_modified set_field]. rewrite row_get_set_ne by done.
        apply row_get_set_eq.
      * unfold field. rewrite Hfields. subst self2 self1.
        cbn [fields set_modified set_field]. apply row_get_set_eq.
      * rewrite Hl, length_app, Hlen. done.
    + rewrite seq_pure. unfold id.
      destruct (append_lost_reasons reasons (self1, db1))
        as (self' & extra & Hrun & Hn & _ & Hfields & Hi & _ & Hl & Hlen).
      exists self', db1, extra. cbn [fst snd] in *.
      unfold seq. rewrite Hrun.
      split_and!; try done.
      * unfold field. rewrite Hfields. subst self1.
        cbn [fields set_modified set_field]. apply row_get_set_eq.
      * unfold field. rewrite Hfields. subst self1.
        cbn [fields set_modified set_field]. by rewrite row_get_set_ne.
      * rewrite Hl, length_app, Hlen. done.
Qed.

(** ** What validation and saving leave alone *)

Lemma keeps_refl self : keeps self self.
Proof. by unfold keeps. Qed.

Lemma keeps_trans a b c : keeps a b → keeps b c → keeps a c.
Proof.
  intros (? & ? & ? & ? & Hab) (? & ? & ? & ? & Hbc).
  unfold keeps. split_and!; try congruence.
  intros key ? ?. rewrite Hbc, Hab; done.
Qed.

Lemma seq_keeps (f g : step Opportunity) :
  (∀ s, keeps s (f s).1) → (∀ s, keeps s (g s).1) → ∀ s, keeps s ((f ;; g)%step s).1.
Proof.
  intros Hf Hg s. unfold seq. specialize (Hf s).
  destruct (f s) as [s' [e|]]; [done|]. eapply keeps_trans; [done|apply Hg].
Qed.

Lemma set_field_keeps key v self :
  key = "customer_name" ∨ key = "title" → keeps self (set_field key v self).
Proof.
  intros Hkey. unfold keeps. split_and!; try done.
  intros key' ? ?. unfold field. cbn [fields set_field].
  apply row_get_set_ne. naive_solver.
Qed.

Lemma validate_item_details_keeps db self : keeps self (validate_item_details db self).1.
Proof. unfold validate_item_details. destruct (items self); apply keeps_refl || done. Qed.

Lemma validate_cust_name_keeps db self : keeps self (validate_cust_name db self).1.
Proof.
  unfold validate_cust_name.
  repeat match goal with
         | |- context [if ?b then _ else _] => destruct b
         | |- context [match ?o with Some _ => _ | None => _ end] => destruct o
         | |- context [match ?l with [] => _ | _ :: _ => _ end] => destruct l
         end; cbn [fst]; try apply keeps_refl; apply set_field_keeps; by left.
Qed.

Lemma validate_keeps (check : uom_validator) db self : keeps self (validate check db self).1.
Proof.
  unfold validate. revert self.
  apply seq_keeps; [apply validate_item_details_keeps|].
  apply seq_keeps; [apply validate_cust_name_keeps|].
  apply seq_keeps; [intros s; apply keeps_refl|].
  intros s. unfold pure. cbn [fst].
  destruct (negb _); [apply set_field_keeps; by right|apply keeps_refl].
Qed.

(** What [save] does to the store: on failure nothing, on success the
    document is stored under its name, with the status it was given. *)
Lemma save_store (check : uom_validator) now self db :
  match (save check now (self, db)).2 with
  | Some _ => (save check now (self, db)).1.2 = db
  | None =>
      ∃ o', (save check now (self, db)).1.2
            = set_tabOpportunity (<[name self := o']> (tabOpportunity db)) db
            ∧ field o' "status" = field self "status"
            ∧ lost_reasons o' = lost_reasons self
            ∧ modified o' = now
  end.
Proof.
  unfold save. cbn [fst snd].
  pose proof (validate_keeps check db (set_modified now self)) as (Hn & Hm & Hl & _ & Hf).
  destruct (validate check db (set_modified now self)) as [self' [e|]]; cbn [fst snd] in *; [done|].
  exists (clear_flags self'). rewrite Hn. split_and!; try done.
  by apply (Hf "status").
Qed.

(** ** The auto-close sweep *)

Lemma before_limit_iff now days m :
  (m < DATE_SUB (CURDATE now) days)%Z
  ↔ (days < now `div` seconds_per_day - m `div` seconds_per_day)%Z.
Proof.
  unfold DATE_SUB, CURDATE, seconds_per_day.
  pose proof (Z.div_mod m 86400 ltac:(done)).
  pose proof (Z.mod_pos_bound m 86400 ltac:(done)).
  lia.
Qed.

Lemma replied_before_spec db limit n :
  n ∈ replied_before db limit ↔
  ∃ o, tabOpportunity db !! n = Some o
       ∧ field o "status" = VStr "Replied" ∧ (modified o < limit)%Z.
Proof.
  unfold replied_before. rewrite list_elem_of_omap. split.
  - intros ([n' o] & Hin & Hsel). apply elem_of_map_to_list in Hin. cbn [fst snd] in Hsel.
    destruct (frappe.sql_eq _ _ && _) eqn:Hc; [|done]. injection Hsel as ->.
    apply andb_true_iff in Hc as [Hs Hm].
    apply sql_eq_true in Hs; [|done]. apply bool_decide_eq_true in Hm. by exists o.
  - intros (o & Hl & Hs & Hm). exists (n, o). split; [by apply elem_of_map_to_list|].
    cbn [fst snd]. rewrite (proj2 (sql_eq_true _ (VStr "Replied") ltac:(done)) Hs).
    by rewrite bool_decide_true.
Qed.

Lemma replied_before_NoDup db limit : NoDup (replied_before db limit).
Proof.
  unfold replied_before.
  pose proof (NoDup_fst_map_to_list (tabOpportunity db)) as Hnd.
  induction (map_to_list (tabOpportunity db)) as [|[n o] l IH]; [constructor|].
  cbn in Hnd |- *. apply NoDup_cons in Hnd as [Hn Hnd].
  destruct (frappe.sql_eq _ _ && _); [|by apply IH].
  constructor; [|by apply IH].
  rewrite list_elem_of_omap. intros ([n' o'] & Hin & Hsel). cbn [fst snd] in Hsel.
  destruct (frappe.sql_eq _ _ && _); [|done]. injection Hsel as ->.
  apply Hn. apply list_elem_of_fmap. by exists (n, o').
Qed.

(** Closing one record: on failure the store is as before, on success the
    record is stored with status Closed. *)
Lemma close_opportunity_store (check : uom_validator) now n db :
  match (close_opportunity check now n db).2 with
  | Some _ => (close_opportunity check now n db).1 = db
  | None =>
      ∃ o', (close_opportunity check now n db).1
            = set_tabOpportunity (<[n := o']> (tabOpportunity db)) db
            ∧ field o' "status" = VStr "Closed"
  end.
Proof.
  unfold close_opportunity, get_doc.
  destruct (tabOpportunity db !! n) as [o|]; [|done].
  cbv zeta. cbn [fst snd].
  match goal with |- context [save check now (?d, db)] =>
    pose proof (save_store check now d db) as Hsave;
    destruct (save check now (d, db)) as [[self' db'] [e|]]
  end; cbn [fst snd] in *; [done|].
  destruct Hsave as (o' & -> & Hs & _). exists o'. split; [done|].
  rewrite Hs. unfold field. cbn [fields set_flag set_field]. apply row_get_set_eq.
Qed.

Lemma close_all (check : uom_validator) now names : ∀ db,
  NoDup names →
  (∀ n, n ∉ names →
        tabOpportunity (for_each names (close_opportunity check now) db).1 !! n
        = tabOpportunity db !! n)
  ∧ ((for_each names (close_opportunity check now) db).2 = None →
     ∀ n, n ∈ names →
          ∃ o', tabOpportunity (for_each names (close_opportunity check now) db).1 !! n = Some o'
                ∧ field o' "status" = VStr "Closed").
Proof.
  induction names as [|m names IH]; intros db Hnd.
  - split; [done|]. intros _ n Hin. by apply not_elem_of_nil in Hin.
  - apply NoDup_cons in Hnd as [Hm Hnd].
    rewrite for_each_cons. unfold seq.
    pose proof (close_opportunity_store check now m db) as Hstep.
    destruct (close_opportunity check now m db) as [db1 [e|]]; cbn [fst snd] in *.
    + subst db1. split; done.
    + destruct Hstep as (o' & -> & Hclosed).
      destruct (IH (set_tabOpportunity (<[m := o']> (tabOpportunity db)) db) Hnd) as [Hout Hin].
      split.
      * intros n Hn. apply not_elem_of_cons in Hn as [Hne Hn].
        rewrite Hout by done. cbn. by rewrite lookup_insert_ne.
      * intros Hok n Hn. apply elem_of_cons in Hn as [->|Hn]; [|by apply Hin].
        exists o'. split; [|done]. rewrite Hout by done. cbn. by rewrite lookup_insert_eq.
Qed.


(** ** Worked examples *)

Lemma has_lost_quotation_active_precedence_witness :
  has_lost_quotation db_lost_and_active opp1 = VBool false.
Proof.
  apply has_lost_quotation_active_precedence.
  - reflexivity.
  - exists "QTN-1", lost_row. split; [left; reflexivity|].
    split; [split; reflexivity|reflexivity].
  - exists "VQ-1", open_row. split; [right; reflexivity|].
    split; [split; reflexivity|split; discriminate].
Defined.

Lemma has_active_quotation_correct_witness :
  truthy_obj (has_active_quotation db_lost_and_active opp1) = true.
Proof.
  apply (has_active_quotation_correct db_lost_and_active opp1).
  - reflexivity.
  - exists "VQ-1", open_row. split; [right; reflexivity|].
    split; [split; reflexivity|split; discriminate].
Defined.

Lemma declare_enquiry_lost_outcome_witness :
  ∃ self' db' extra,
    declare_enquiry_lost no_uom_check 2000 [reason1; reason2] (VStr "Too expensive")
      (opp1, db_lost_only)
    = save no_uom_check 2000 (self', db')
    ∧ field self' "status" = VStr "Lost"
    ∧ field self' "order_lost_reason" = VStr "Too expensive"
    ∧ lost_reasons self' = (lost_reasons opp1 ++ extra)%list
    ∧ length extra = 2%nat
    ∧ length (lost_reasons self') = 2%nat
    ∧ name self' = "OPP-1" ∧ items self' = [].
Proof.
  assert (Hnone : ¬ active_quotation_exists db_lost_only opp1).
  { intros Hactive.
    apply (has_active_quotation_iff db_lost_only opp1) in Hactive; [|reflexivity].
    vm_compute in Hactive. discriminate Hactive. }
  destruct (declare_enquiry_lost_outcome no_uom_check 2000 [reason1; reason2]
              (VStr "Too expensive") opp1 db_lost_only eq_refl) as [_ Hlost].
  destruct (Hlost Hnone) as (self' & db' & extra & H1 & H2 & H3 & H4 & H5 & H6 & H7 & H8).
  exists self', db', extra. split_and!; assumption.
Defined.

Lemma declare_enquiry_lost_rejects_unchanged_witness :
  declare_enquiry_lost no_uom_check 2000 [reason1; reason2] (VStr "Too expensive")
    (opp1, db_lost_and_active)
  = ((opp1, db_lost_and_active),
     Some (ValidationError "Cannot declare as lost, because Quotation has been made.")).
Proof.
  apply declare_enquiry_lost_rejects_unchanged.
  - reflexivity.
  - exists "VQ-1", open_row. split; [right; reflexivity|].
    split; [split; reflexivity|split; discriminate].
Defined.

Lemma validate_item_details_missing_item_witness :
  frappe.get_value_dict (tabItem empty_db) (VStr "ITEM-404") item_fields = None
  ∧ validate_item_details empty_db opp_missing_item
    = (opp_missing_item, Some (AttributeError "'NoneType' object has no attribute 'get'")).
Proof.
  apply (validate_item_details_missing_item empty_db opp_missing_item line_missing []).
  - reflexivity.
  - reflexivity.
  - reflexivity.
  - exists "item_name". split; [left|reflexivity].
Defined.


(** ** Further properties of the status predicates *)

Lemma ordered_rows_truthy db self :
  truthy_obj (Rows (ordered_quotation_rows db (name self))) = true ↔
  ∃ n qi parent q,
    tabQuotationItem db !! n = Some qi
    ∧ row_get qi "parent" = VStr parent
    ∧ tabQuotation db !! parent = Some q
    ∧ row_get q "docstatus" = VInt 1
    ∧ row_get qi "prevdoc_docname" = VStr (name self)
    ∧ row_get q "status" = VStr "Ordered".
Proof.
  transitivity (∃ row, row ∈ ordered_quotation_rows db (name self)).
  { destruct (ordered_quotation_rows db (name self)) as [|row l]; cbn; split; try done.
    - intros [row Hin]. by apply not_elem_of_nil in Hin.
    - intros _. exists row. left. }
  unfold ordered_quotation_rows. split.
  - intros (row & Hin). apply list_elem_of_omap in Hin as ([n qi] & Hin & Hsel).
    apply elem_of_map_to_list in Hin. cbn [fst snd] in Hsel.
    destruct (row_get qi "parent") as [| |z|parent] eqn:Hp; try done.
    destruct (tabQuotation db !! parent) as [q|] eqn:Hq; [|done].
    destruct (_ && _ && _) eqn:Hc; [|done].
    apply andb_true_iff in Hc as [Hc H3]. apply andb_true_iff in Hc as [H1 H2].
    apply sql_eq_true in H1, H2, H3; try done.
    by exists n, qi, parent, q.
  - intros (n & qi & parent & q & Hqi & Hp & Hq & H1 & H2 & H3).
    exists {["name" := VStr parent]}. apply list_elem_of_omap.
    exists (n, qi). split; [by apply elem_of_map_to_list|].
    cbn [fst snd]. rewrite Hp, Hq.
    rewrite (proj2 (sql_eq_true _ (VInt 1) ltac:(done)) H1).
    rewrite (proj2 (sql_eq_true _ (VStr (name self)) ltac:(done)) H2).
    rewrite (proj2 (sql_eq_true _ (VStr "Ordered") ltac:(done)) H3). done.
Qed.

Lemma ordered_filters_vehicle self (r : Row) :
  frappe.matches
    [("opportunity", frappe.Eq (VStr (name self)));
     ("docstatus", frappe.Eq (VInt 1));
     ("status", frappe.Eq (VStr "Ordered"))] r = true
  ↔ submitted_for self r ∧ row_get r "status" = VStr "Ordered".
Proof.
  unfold frappe.matches, submitted_for. cbn [forallb frappe.holds fst snd].
  rewrite !andb_true_iff, !sql_eq_true by done. naive_solver.
Qed.

(** X1. [has_ordered_quotation] returns a true value exactly when an
    ordered quotation exists: a submitted Vehicle Quotation of the
    Opportunity with status Ordered, or a line of a submitted, Ordered
    Quotation whose previous document is the Opportunity. Unlike the other
    two predicates it finds Quotations through their lines, not through
    their own opportunity field. *)
Theorem has_ordered_quotation_correct db self :
  named (tabVehicleQuotation db) →
  truthy_obj (has_ordered_quotation db self) = true ↔ ordered_quotation_exists db self.
Proof.
  intros Hnamed. unfold has_ordered_quotation, ordered_quotation_exists.
  rewrite obj_or_truthy, ordered_rows_truthy. cbn [truthy_obj].
  rewrite get_value_truthy by done.
  setoid_rewrite ordered_filters_vehicle. naive_solver.
Qed.

Lemma has_ordered_quotation_correct_witness :
  truthy_obj (has_ordered_quotation db_ordered opp1) = true.
Proof.
  apply (has_ordered_quotation_correct db_ordered opp1).
  - reflexivity.
  - right. exists "QI-1", ordered_line, "QTN-9", ordered_quotation.
    split_and!; reflexivity.
Defined.

(** X2. The three answers of [has_lost_quotation]: it returns [True]
    exactly when a lost quotation exists and no active one does, [None]
    exactly when no lost quotation exists, and [False] exactly when a lost
    and an active quotation exist together. *)
Theorem has_lost_quotation_answers db self :
  named (tabVehicleQuotation db) →
  (has_lost_quotation db self = VBool true
   ↔ lost_quotation_exists db self ∧ ¬ active_quotation_exists db self)
  ∧ (has_lost_quotation db self = VNone ↔ ¬ lost_quotation_exists db self)
  ∧ (has_lost_quotation db self = VBool false
     ↔ lost_quotation_exists db self ∧ active_quotation_exists db self).
Proof.
  intros Hnamed. unfold has_lost_quotation. cbv zeta.
  pose proof (lost_guard_iff db self Hnamed) as Hlost.
  pose proof (has_active_quotation_iff db self Hnamed) as Hactive.
  destruct (truthy_obj (obj_or _ _)); destruct (truthy_obj (has_active_quotation db self));
    split_and!; split; try done; try naive_solver.
Qed.

Lemma has_lost_quotation_answers_witness :
  has_lost_quotation db_lost_only opp1 = VBool true.
Proof.
  destruct (has_lost_quotation_answers db_lost_only opp1 eq_refl) as (Htrue & _ & _).
  apply Htrue. split.
  - exists "QTN-1", lost_row. split; [left; reflexivity|].
    split; [split; reflexivity|reflexivity].
  - intros Hactive.
    apply (has_active_quotation_iff db_lost_only opp1) in Hactive; [|reflexivity].
    vm_compute in Hactive. discriminate Hactive.
Defined.

(** ** When the backfill fails *)

Lemma set_missing_found it keys : ∀ d, (set_missing (Some it) keys d).2 = None.
Proof.
  induction keys as [|k keys IH]; intros d; cbn; [done|].
  destruct (truthy (row_get d k)); apply IH.
Qed.

Lemma set_missing_nothing_to_fill item keys : ∀ d,
  (∀ key, key ∈ keys → truthy (row_get d key) = true) →
  set_missing item keys d = (d, None).
Proof.
  induction keys as [|k keys IH]; intros d Hall; cbn; [done|].
  rewrite (Hall k) by left. apply IH. intros key Hin. apply Hall. by right.
Qed.

Lemma all_truthy_or_not (d : Row) (keys : list string) :
  (∀ key, key ∈ keys → truthy (row_get d key) = true)
  ∨ (∃ key, key ∈ keys ∧ truthy (row_get d key) = false).
Proof.
  induction keys as [|k keys [IH|(key & Hin & Hf)]].
  - left. intros key Hin. by apply not_elem_of_nil in Hin.
  - destruct (truthy (row_get d k)) eqn:Hk.
    + left. intros key Hin. apply elem_of_cons in Hin as [->|Hin]; [done|by apply IH].
    + right. exists k. split; [left|done].
  - right. exists key. split; [by right|done].
Qed.

Lemma by_name_dict (t : gmap string Row) v keys :
  frappe.get_value_dict t v keys = None ↔ frappe.by_name t v = None.
Proof. unfold frappe.get_value_dict. by destruct (frappe.by_name t v). Qed.

(** One line: the pass over its fields fails exactly when the line does not
    pass, and then with the AttributeError. *)
Lemma set_missing_line db d :
  truthy (row_get d "item_code") = true →
  let r := set_missing (frappe.get_value_dict (tabItem db) (row_get d "item_code") item_fields)
             item_fields d in
  (r.2 = None ∧ line_passes db d)
  ∨ (r = (d, Some (AttributeError "'NoneType' object has no attribute 'get'"))
     ∧ ¬ line_passes db d).
Proof.
  intros Hcode. cbv zeta.
  destruct (frappe.get_value_dict (tabItem db) (row_get d "item_code") item_fields)
    as [it|] eqn:Hit.
  - left. split; [apply set_missing_found|].
    intros _ Hmissing. apply (by_name_dict _ _ item_fields) in Hmissing. congruence.
  - destruct (all_truthy_or_not d item_fields) as [Hall|Hsome].
    + left. rewrite set_missing_nothing_to_fill by done. split; [done|]. by intros _ _.
    + right. rewrite set_missing_None by done. split; [done|].
      intros Hpass. destruct Hsome as (key & Hin & Hf).
      apply by_name_dict in Hit. rewrite (Hpass Hcode Hit key Hin) in Hf. done.
Qed.

Lemma validate_item_rows_outcome db rows :
  ((validate_item_rows db rows).2 = None ∧ Forall (line_passes db) rows)
  ∨ ((validate_item_rows db rows).2
       = Some (AttributeError "'NoneType' object has no attribute 'get'")
     ∧ ¬ Forall (line_passes db) rows).
Proof.
  induction rows as [|d rest IH]; [left; by split|].
  rewrite validate_item_rows_cons.
  destruct (truthy (row_get d "item_code")) eqn:Hcode; cbn [negb].
  - destruct (set_missing_line db d Hcode) as [[Hok Hpass]|[Hfail Hnot]].
    + destruct (set_missing _ item_fields d) as [d' e]. cbn [snd] in Hok. subst e.
      cbn [snd]. destruct IH as [[-> Hall]|[-> Hnall]].
      * left. split; [done|by constructor].
      * right. split; [done|]. intros Hall. apply Forall_cons in Hall as [_ Hall]. done.
    + rewrite Hfail. cbn [snd]. right. split; [done|].
      intros Hall. apply Forall_cons in Hall as [Hd _]. done.
  - cbn [snd]. destruct IH as [[-> Hall]|[-> Hnall]].
    + left. split; [done|]. constructor; [|done]. intros Hc. congruence.
    + right. split; [done|]. intros Hall. apply Forall_cons in Hall as [_ Hall]. done.
Qed.

(** X3. [validate_item_details] goes through exactly when every line item
    either has no item code, or names an existing Item, or has none of the
    four fields empty; otherwise it raises, and the only exception it ever
    raises is the AttributeError on the missing Item. *)
Theorem validate_item_details_raises_iff db self :
  ((validate_item_details db self).2 = None ↔ Forall (line_passes db) (items self))
  ∧ ((validate_item_details db self).2 = None
     ∨ (validate_item_details db self).2
       = Some (AttributeError "'NoneType' object has no attribute 'get'")).
Proof.
  unfold validate_item_details. destruct (items self) as [|d rest] eqn:Hitems.
  - cbn. split; [split; [constructor|done]|by left].
  - cbn [snd]. destruct (validate_item_rows_outcome db (d :: rest)) as [[-> Hall]|[-> Hnall]].
    + split; [done|by left].
    + split; [split; done|by right].
Qed.

(** ** Deriving the customer name *)

Lemma get_value_tuple_two (t : gmap string Row) v f1 f2 :
  frappe.get_value_tuple t v [f1; f2]
  = (λ r, [row_get r f1; row_get r f2]) <$> frappe.by_name t v.
Proof. done. Qed.

(** X4. [validate_cust_name] for a party that is a Lead: when the Lead
    exists the customer name becomes its company name, or its lead name when
    it has no company name, and nothing else changes; when the Lead does not
    exist the method raises a TypeError and leaves the document as it was. *)
Theorem validate_cust_name_lead db self :
  truthy (field self "party_name") = true →
  field self "opportunity_from" = VStr "Lead" →
  validate_cust_name db self =
    match lead_record db self with
    | Some lead =>
        (set_field "customer_name"
           (if truthy (row_get lead "company_name") then row_get lead "company_name"
            else row_get lead "lead_name") self, None)
    | None => (self, Some (TypeError "'NoneType' object is not iterable"))
    end.
Proof.
  intros Hparty Hfrom. unfold validate_cust_name, lead_record.
  rewrite Hparty, Hfrom. cbn [andb].
  rewrite bool_decide_false by done. rewrite bool_decide_true by done.
  rewrite get_value_tuple_two.
  by destruct (frappe.by_name (tabLead db) (field self "party_name")).
Qed.

Lemma validate_cust_name_lead_witness :
  validate_cust_name db_lead (opp_from_lead "LEAD-1")
  = (set_field "customer_name" (VStr "Acme") (opp_from_lead "LEAD-1"), None)
  ∧ validate_cust_name db_lead (opp_from_lead "LEAD-404")
    = (opp_from_lead "LEAD-404", Some (TypeError "'NoneType' object is not iterable")).
Proof.
  split.
  - apply (validate_cust_name_lead db_lead (opp_from_lead "LEAD-1")); reflexivity.
  - apply (validate_cust_name_lead db_lead (opp_from_lead "LEAD-404")); reflexivity.
Defined.

(** X5. [validate_cust_name] raises for no party but a Lead: when the
    document is not from a Lead the method goes through; for a Customer the
    customer name becomes the one of the Customer record, and [None] when no
    such Customer exists, overwriting what was there; with no party, or a
    party of another kind, the document is left as it is. *)
Theorem validate_cust_name_not_lead db self :
  field self "opportunity_from" ≠ VStr "Lead" →
  validate_cust_name db self =
    if truthy (field self "party_name")
       && bool_decide (field self "opportunity_from" = VStr "Customer")
    then
      (set_field "customer_name"
         (match frappe.by_name (tabCustomer db) (field self "party_name") with
          | Some customer => row_get customer "customer_name"
          | None => VNone
          end) self, None)
    else (self, None).
Proof.
  intros Hfrom. unfold validate_cust_name, frappe.get_value_field.
  destruct (truthy (field self "party_name") && bool_decide _); [|].
  - by destruct (frappe.by_name (tabCustomer db) (field self "party_name")).
  - rewrite (bool_decide_false _ Hfrom), andb_false_r. done.
Qed.

Lemma validate_cust_name_not_lead_witness :
  validate_cust_name empty_db opp1 = (opp1, None).
Proof. apply (validate_cust_name_not_lead empty_db opp1). discriminate. Defined.

(** ** Validation as a whole *)

Lemma validate_cust_name_other_fields db self key :
  key ≠ "customer_name" → field (validate_cust_name db self).1 key = field self key.
Proof.
  intros Hne. unfold validate_cust_name.
  repeat match goal with
         | |- context [if ?b then _ else _] => destruct b
         | |- context [match ?o with Some _ => _ | None => _ end] => destruct o
         | |- context [match ?l with [] => _ | _ :: _ => _ end] => destruct l
         end; cbn [fst]; try done;
    unfold field; cbn [fields set_field]; by apply row_get_set_ne.
Qed.

Lemma validate_item_details_fields db self :
  fields (validate_item_details db self).1 = fields self.
Proof. unfold validate_item_details. by destruct (items self). Qed.

(** X6. [validate] never touches the name, the status, the lost reasons or
    any field other than the customer name and the title. When it goes
    through, a title that was set is kept and a title that was empty has
    become the customer name; and it goes through only if the backfill of
    the line items did. *)
Theorem validate_title_default (check : uom_validator) db self :
  let r := validate check db self in
  keeps self r.1
  ∧ (r.2 = None →
     field r.1 "title"
     = (if truthy (field self "title") then field self "title"
        else field r.1 "customer_name"))
  ∧ (r.2 = None → (validate_item_details db self).2 = None).
Proof.
  cbv zeta. split; [apply validate_keeps|].
  unfold validate, seq, pure.
  pose proof (validate_item_details_fields db self) as Hf1.
  destruct (validate_item_details db self) as [s1 [e1|]]; cbn [fst snd] in *; [by split|].
  pose proof (validate_cust_name_other_fields db s1 "title" ltac:(done)) as Hf2.
  destruct (validate_cust_name db s1) as [s2 [e2|]]; cbn [fst snd] in *; [by split|].
  destruct (check db s2 "uom" "qty") as [e3|]; cbn [fst snd]; [by split|].
  split; [|done]. intros _.
  assert (Ht : field s2 "title" = field self "title").
  { rewrite Hf2. unfold field. by rewrite Hf1. }
  rewrite <- Ht. destruct (truthy (field s2 "title")); cbn [negb]; [done|].
  unfold field. cbn [fields set_field]. rewrite row_get_set_eq.
  by rewrite row_get_set_ne.
Qed.

(** ** Loops over stored Opportunities *)

Lemma for_each_app {S A} (xs ys : list A) (body : A → step S) s :
  for_each (xs ++ ys) body s =
  match for_each xs body s with
  | (s', None) => for_each ys body s'
  | r => r
  end.
Proof.
  revert s. induction xs as [|x xs IH]; intros s; [done|].
  cbn [app]. rewrite !for_each_cons. unfold seq.
  destruct (body x s) as [s' [e|]]; [done|]. apply IH.
Qed.

(** A loop whose body either fails and leaves the store alone, or replaces
    the existing record of that name by one that satisfies [P]. *)
Lemma for_each_store (P : Opportunity → Prop) (body : string → step DB) :
  (∀ n db,
     match (body n db).2 with
     | Some _ => (body n db).1 = db
     | None =>
         ∃ o', (body n db).1 = set_tabOpportunity (<[n := o']> (tabOpportunity db)) db
               ∧ P o' ∧ is_Some (tabOpportunity db !! n)
     end) →
  ∀ names db,
    let r := for_each names body db in
    (∀ n, n ∉ names → tabOpportunity r.1 !! n = tabOpportunity db !! n)
    ∧ (r.2 = None →
       ∀ n, n ∈ names → ∃ o', tabOpportunity r.1 !! n = Some o' ∧ P o')
    ∧ (∀ n, is_Some (tabOpportunity r.1 !! n) ↔ is_Some (tabOpportunity db !! n))
    ∧ (∀ n o', tabOpportunity r.1 !! n = Some o' →
               tabOpportunity db !! n = Some o' ∨ P o')
    ∧ r.1 = set_tabOpportunity (tabOpportunity r.1) db.
Proof.
  intros Hbody names. induction names as [|m names IH]; intros db; cbv zeta.
  - cbn. split_and!; try done.
    + intros _ n Hin. by apply not_elem_of_nil in Hin.
    + intros n o' Hl. by left.
    + by destruct db.
  - rewrite for_each_cons. unfold seq.
    specialize (Hbody m db).
    destruct (body m db) as [db1 [e|]]; cbn [fst snd] in *.
    + subst db1. split_and!; try done.
      * intros n o' Hl. by left.
      * by destruct db.
    + destruct Hbody as (o' & -> & HP & Hex).
      destruct (IH (set_tabOpportunity (<[m := o']> (tabOpportunity db)) db))
        as (Hout & Hin & Hdom & Hany & Hrest).
      split_and!.
      * intros n Hn. apply not_elem_of_cons in Hn as [Hne Hn].
        rewrite Hout by done. cbn. by rewrite lookup_insert_ne.
      * intros Hok n Hn. destruct (decide (n ∈ names)) as [Hmem|Hmem]; [by apply Hin|].
        apply elem_of_cons in Hn as [->|Hn]; [|done].
        exists o'. split; [|done]. rewrite Hout by done. cbn. by rewrite lookup_insert_eq.
      * intros n. rewrite Hdom. cbn. destruct (decide (m = n)) as [->|Hne].
        -- rewrite lookup_insert_eq. split; [done|by eauto].
        -- by rewrite lookup_insert_ne.
      * intros n o'' Hl. destruct (Hany n o'' Hl) as [Hold|HP'']; [|by right].
        cbn in Hold. destruct (decide (m = n)) as [->|Hne].
        -- rewrite lookup_insert_eq in Hold. injection Hold as <-. by right.
        -- rewrite lookup_insert_ne in Hold by done. by left.
      * rewrite Hrest at 1. done.
Qed.

Lemma set_status_of_store (check : uom_validator) now status n db :
  match (set_status_of check now status n db).2 with
  | Some _ => (set_status_of check now status n db).1 = db
  | None =>
      ∃ o', (set_status_of check now status n db).1
            = set_tabOpportunity (<[n := o']> (tabOpportunity db)) db
            ∧ field o' "status" = status ∧ is_Some (tabOpportunity db !! n)
  end.
Proof.
  unfold set_status_of, get_doc.
  destruct (tabOpportunity db !! n) as [o|]; [|done].
  cbv zeta. cbn [fst snd].
  match goal with |- context [save check now (?d, db)] =>
    pose proof (save_store check now d db) as Hsave;
    destruct (save check now (d, db)) as [[self' db'] [e|]]
  end; cbn [fst snd] in *; [done|].
  destruct Hsave as (o' & -> & Hs & _). exists o'. split_and!; [done| |by eauto].
  rewrite Hs. unfold field. cbn [fields set_field]. apply row_get_set_eq.
Qed.

Lemma close_opportunity_store' (check : uom_validator) now n db :
  match (close_opportunity check now n db).2 with
  | Some _ => (close_opportunity check now n db).1 = db
  | None =>
      ∃ o', (close_opportunity check now n db).1
            = set_tabOpportunity (<[n := o']> (tabOpportunity db)) db
            ∧ field o' "status" = VStr "Closed" ∧ is_Some (tabOpportunity db !! n)
  end.
Proof.
  pose proof (close_opportunity_store check now n db) as Hstore.
  destruct ((close_opportunity check now n db).2) eqn:He; [done|].
  destruct Hstore as (o' & Hdb & Hs). exists o'. split_and!; [done..|].
  unfold close_opportunity, get_doc in He.
  destruct (tabOpportunity db !! n); [by eauto|done].
Qed.

(** ** Setting the status of several Opportunities *)

(** X7. [set_multiple_status] never touches a record it was not given, and
    never creates or deletes one; when it runs through, every record named
    in the list is stored with the requested status. *)
Theorem set_multiple_status_sets (check : uom_validator) now names status db :
  let r := set_multiple_status check now names status db in
  (∀ n, n ∉ names → tabOpportunity r.1 !! n = tabOpportunity db !! n)
  ∧ (∀ n, is_Some (tabOpportunity r.1 !! n) ↔ is_Some (tabOpportunity db !! n))
  ∧ (r.2 = None →
     ∀ n, n ∈ names → ∃ o', tabOpportunity r.1 !! n = Some o' ∧ field o' "status" = status).
Proof.
  cbv zeta. unfold set_multiple_status.
  destruct (for_each_store (λ o, field o "status" = status) (set_status_of check now status)
              (set_status_of_store check now status) names db)
    as (Hout & Hin & Hdom & _ & _).
  by split_and!.
Qed.

(** X8. [set_multiple_status] stops at the first name that has no record
    and raises DoesNotExistError for it: the records named before it keep
    the status they were just given, nothing is rolled back, and the names
    after it are not processed. *)
Theorem set_multiple_status_stops (check : uom_validator) now status pre bad post db :
  tabOpportunity db !! bad = None →
  (set_multiple_status check now pre status db).2 = None →
  set_multiple_status check now (pre ++ bad :: post) status db
  = ((set_multiple_status check now pre status db).1,
     Some (DoesNotExistError "Opportunity" bad))
  ∧ ∀ n, n ∈ pre →
         ∃ o', tabOpportunity (set_multiple_status check now pre status db).1 !! n = Some o'
               ∧ field o' "status" = status.
Proof.
  intros Hbad Hok. unfold set_multiple_status in *.
  destruct (for_each_store (λ o, field o "status" = status) (set_status_of check now status)
              (set_status_of_store check now status) pre db)
    as (_ & Hin & Hdom & _ & _).
  split; [|by apply Hin].
  rewrite for_each_app.
  destruct (for_each pre (set_status_of check now status) db) as [db1 e] eqn:Hpre.
  cbn [fst snd] in *. subst e.
  rewrite for_each_cons. unfold seq, set_status_of at 1, get_doc.
  assert (Hnone : tabOpportunity db1 !! bad = None).
  { apply eq_None_not_Some. rewrite Hdom, Hbad. by intros [? ?]. }
  by rewrite Hnone.
Qed.

Lemma set_multiple_status_stops_witness :
  (set_multiple_status no_uom_check sweep_now ["O1"; "O404"; "O2"] (VStr "Open") db_sweep).2
  = Some (DoesNotExistError "Opportunity" "O404").
Proof.
  destruct (set_multiple_status_stops no_uom_check sweep_now (VStr "Open")
              ["O1"] "O404" ["O2"] db_sweep eq_refl) as [Hstop _].
  - vm_compute. reflexivity.
  - cbn [app] in Hstop. rewrite Hstop. reflexivity.
Defined.

(** ** More on the auto-close sweep *)

(** X9. Whatever happens during the sweep, also when a save fails midway,
    it creates no Opportunity and deletes none, every record is either as it
    was or stored with status Closed, and no other table and no setting is
    changed. *)
Theorem auto_close_opportunity_only_closes (check : uom_validator) now db :
  let r := auto_close_opportunity check now db in
  (∀ n, is_Some (tabOpportunity r.1 !! n) ↔ is_Some (tabOpportunity db !! n))
  ∧ (∀ n o', tabOpportunity r.1 !! n = Some o' →
             tabOpportunity db !! n = Some o' ∨ field o' "status" = VStr "Closed")
  ∧ r.1 = set_tabOpportunity (tabOpportunity r.1) db.
Proof.
  cbv zeta. unfold auto_close_opportunity.
  destruct (for_each_store (λ o, field o "status" = VStr "Closed") (close_opportunity check now)
              (close_opportunity_store' check now)
              (replied_before db (DATE_SUB (CURDATE now) (auto_close_after_days db))) db)
    as (_ & _ & Hdom & Hany & Hrest).
  by split_and!.
Qed.

Lemma auto_close_opportunity_unfold (check : uom_validator) now db :
  auto_close_opportunity check now db
  = for_each (replied_before db (DATE_SUB (CURDATE now) (auto_close_after_days db)))
      (close_opportunity check now) db.
Proof. done. Qed.

(** X10. A sweep that ran through has nothing left to do: running it again
    at the same time selects no record and leaves the store as it is. *)
Theorem auto_close_opportunity_idempotent (check : uom_validator) now db :
  (auto_close_opportunity check now db).2 = None →
  auto_close_opportunity check now (auto_close_opportunity check now db).1
  = ((auto_close_opportunity check now db).1, None).
Proof.
  intros Hok.
  rewrite (auto_close_opportunity_unfold check now (auto_close_opportunity check now db).1).
  rewrite (auto_close_opportunity_unfold check now db) in Hok |- *.
  set (limit := DATE_SUB (CURDATE now) (auto_close_after_days db)) in *.
  destruct (for_each_store (λ o, field o "status" = VStr "Closed") (close_opportunity check now)
              (close_opportunity_store' check now) (replied_before db limit) db)
    as (_ & Hin & _ & Hany & Hrest).
  cbv zeta in *.
  set (db' := (for_each (replied_before db limit) (close_opportunity check now) db).1) in *.
  assert (Hdays : auto_close_after_days db' = auto_close_after_days db).
  { rewrite Hrest. done. }
  rewrite Hdays. fold limit.
  assert (Hnil : replied_before db' limit = []).
  { apply elem_of_nil_inv. intros n Hsel.
    apply replied_before_spec in Hsel as (o & Hl & Hs & Hm).
    destruct (Hany n o Hl) as [Hold|Hclosed]; [|congruence].
    assert (Hn : n ∈ replied_before db limit).
    { apply replied_before_spec. by exists o. }
    destruct (Hin Hok n Hn) as (o' & Hl' & Hclosed). congruence. }
  rewrite Hnil. done.
Qed.

Lemma auto_close_opportunity_idempotent_witness :
  auto_close_opportunity no_uom_check sweep_now
    (auto_close_opportunity no_uom_check sweep_now db_sweep).1
  = ((auto_close_opportunity no_uom_check sweep_now db_sweep).1, None).
Proof.
  apply auto_close_opportunity_idempotent. vm_compute. reflexivity.
Defined.

(** X11. A configured threshold of 0 days is not honoured: it counts as
    unset, so a Replied record that is at most 15 calendar days old is left
    as it is. *)
Theorem auto_close_opportunity_zero_threshold (check : uom_validator) now db n o :
  singles db !! ("Selling Settings", "close_opportunity_after_days") = Some 0%Z →
  tabOpportunity db !! n = Some o →
  (age_in_days now o ≤ 15)%Z →
  tabOpportunity (auto_close_opportunity check now db).1 !! n = Some o.
Proof.
  intros Hzero Hl Hage. unfold auto_close_opportunity. cbv zeta.
  assert (Hdays : auto_close_after_days db = 15%Z).
  { unfold auto_close_after_days, frappe.get_single_value. by rewrite Hzero. }
  rewrite Hdays.
  destruct (close_all check now _ db (replied_before_NoDup db (DATE_SUB (CURDATE now) 15)))
    as [Hout _].
  rewrite Hout; [done|].
  rewrite replied_before_spec. intros (o' & Hl' & _ & Hm).
  assert (o' = o) as -> by congruence.
  apply before_limit_iff in Hm. unfold age_in_days in Hage. lia.
Qed.

Lemma auto_close_opportunity_zero_threshold_witness :
  tabOpportunity (auto_close_opportunity no_uom_check sweep_now db_zero_threshold).1 !! "O2"
  = Some (replied "O2" (day 95 + 7200)).
Proof.
  apply auto_close_opportunity_zero_threshold.
  - reflexivity.
  - reflexivity.
  - vm_compute. discriminate.
Defined.

(** ** Declaring lost is not all or nothing *)

Lemma db_set_stored now key v self db o :
  tabOpportunity db !! name self = Some o →
  tabOpportunity (db_set now key v (self, db)).1.2 !! name self
  = Some (set_modified now (set_field key v o)).
Proof. intros Hl. cbn. by rewrite lookup_alter_eq, Hl. Qed.

(** X12. [declare_enquiry_lost] writes the status through before it saves:
    when no active quotation exists and the Opportunity is stored, the
    stored record has status Lost after the call whether or not the final
    save went through; when the save raised, the stored record has none of
    the supplied lost reasons, and when it went through, it has all of them. *)
Theorem declare_enquiry_lost_writes_through
    (check : uom_validator) now reasons detailed self db o :
  named (tabVehicleQuotation db) →
  ¬ active_quotation_exists db self →
  tabOpportunity db !! name self = Some o →
  let r := declare_enquiry_lost check now reasons detailed (self, db) in
  ∃ o', tabOpportunity r.1.2 !! name self = Some o'
        ∧ field o' "status" = VStr "Lost"
        ∧ (r.2 ≠ None → lost_reasons o' = lost_reasons o)
        ∧ (r.2 = None →
           length (lost_reasons o') = (length (lost_reasons self) + length reasons)%nat).
Proof.
  intros Hnamed Hnone Hstored. cbv zeta.
  pose proof (not_truthy_obj_iff _ _ (has_active_quotation_iff db self Hnamed) Hnone) as Hf.
  assert (Hsteps : ∃ self3 db3 o2,
             declare_enquiry_lost check now reasons detailed (self, db)
             = save check now (self3, db3)
             ∧ tabOpportunity db3 !! name self = Some o2
             ∧ field o2 "status" = VStr "Lost" ∧ lost_reasons o2 = lost_reasons o
             ∧ name self3 = name self ∧ field self3 "status" = VStr "Lost"
             ∧ length (lost_reasons self3)
               = (length (lost_reasons self) + length reasons)%nat).
  { unfold declare_enquiry_lost. cbn [fst snd]. rewrite Hf. cbn [negb].
    unfold db_set at 1. rewrite seq_pure. cbn [fst snd].
    set (st1 := (set_modified now (set_field "status" (VStr "Lost") self),
                 set_tabOpportunity
                   (alter (λ o, set_modified now (set_field "status" (VStr "Lost") o))
                      (name self) (tabOpportunity db)) db)).
    assert (H1 : ∃ o1, tabOpportunity st1.2 !! name self = Some o1
                       ∧ field o1 "status" = VStr "Lost" ∧ lost_reasons o1 = lost_reasons o).
    { exists (set_modified now (set_field "status" (VStr "Lost") o)). split_and!.
      - subst st1. cbn [fst snd set_tabOpportunity tabOpportunity].
        by rewrite lookup_alter_eq, Hstored.
      - unfold field. cbn [fields set_modified set_field]. apply row_get_set_eq.
      - done. }
    assert (Hst1 : name st1.1 = name self ∧ field st1.1 "status" = VStr "Lost"
                   ∧ lost_reasons st1.1 = lost_reasons self).
    { split_and!; [done| |done]. unfold field. subst st1.
      cbn [fst fields set_modified set_field]. apply row_get_set_eq. }
    clearbody st1.
    assert (H2 : ∃ st2 : Opportunity * DB,
               (if truthy detailed then db_set now "order_lost_reason" detailed else pure id) st1
               = (st2, None)
               ∧ (∃ o2, tabOpportunity st2.2 !! name self = Some o2
                        ∧ field o2 "status" = VStr "Lost" ∧ lost_reasons o2 = lost_reasons o)
               ∧ name st2.1 = name self ∧ field st2.1 "status" = VStr "Lost"
               ∧ lost_reasons st2.1 = lost_reasons self).
    { destruct H1 as (o1 & Hl1 & Hs1 & Hr1). destruct Hst1 as (Hn & Hs & Hr).
      destruct (truthy detailed).
      - exists (set_modified now (set_field "order_lost_reason" detailed st1.1),
                set_tabOpportunity
                  (alter (λ o, set_modified now (set_field "order_lost_reason" detailed o))
                     (name st1.1) (tabOpportunity st1.2)) st1.2).
        split; [done|]. cbn [fst snd set_tabOpportunity tabOpportunity]. split_and!; try done.
        + exists (set_modified now (set_field "order_lost_reason" detailed o1)).
          rewrite Hn, lookup_alter_eq, Hl1. split_and!; try done.
          unfold field. cbn [fields set_modified set_field]. by rewrite row_get_set_ne.
        + unfold field. cbn [fields set_modified set_field]. by rewrite row_get_set_ne.
      - exists st1. split; [done|]. split_and!; try done. by exists o1. }
    destruct H2 as (st2 & Hrun2 & (o2 & Hl2 & Hs2 & Hr2) & Hn2 & Hst2 & Hlr2).
    unfold seq at 1. rewrite Hrun2.
    destruct (append_lost_reasons reasons st2)
      as (self3 & extra & Hrun3 & Hn3 & _ & Hf3 & _ & _ & Hl3 & Hlen).
    unfold seq. rewrite Hrun3.
    exists self3, st2.2, o2. split_and!; try done.
    - congruence.
    - unfold field. by rewrite Hf3.
    - by rewrite Hl3, length_app, Hlen, Hlr2. }
  destruct Hsteps as (self3 & db3 & o2 & -> & Hl2 & Hs2 & Hr2 & Hn3 & Hs3 & Hlen3).
  pose proof (save_store check now self3 db3) as Hsave.
  destruct (save check now (self3, db3)) as [[self4 db4] [e|]]; cbn [fst snd] in *.
  - subst db4. exists o2. by split_and!.
  - destruct Hsave as (o' & -> & Hs' & Hr' & _). exists o'.
    cbn [tabOpportunity set_tabOpportunity]. rewrite Hn3, lookup_insert_eq.
    split_and!; try done.
    + by rewrite Hs'.
    + intros _. by rewrite Hr'.
Qed.

Lemma declare_enquiry_lost_writes_through_witness :
  ∃ o', tabOpportunity
          (declare_enquiry_lost no_uom_check 2000 [reason1] VNone
             (opp_missing_item, db_missing_item)).1.2 !! "OPP-2" = Some o'
        ∧ field o' "status" = VStr "Lost"
        ∧ lost_reasons o' = [].
Proof.
  destruct (declare_enquiry_lost_writes_through no_uom_check 2000 [reason1] VNone
              opp_missing_item db_missing_item opp_missing_item eq_refl)
    as (o' & Hl & Hs & Hfail & _).
  - intros Hactive.
    apply (has_active_quotation_iff db_missing_item opp_missing_item) in Hactive; [|reflexivity].
    vm_compute in Hactive. discriminate Hactive.
  - reflexivity.
  - exists o'. split_and!; [exact Hl|exact Hs|]. apply Hfail. vm_compute. discriminate.
Defined.

(** ** Where a failing backfill stops *)

Lemma validate_item_rows_failure db rows e :
  (validate_item_rows db rows).2 = Some e →
  ∃ (before before' : list Row) d after,
    rows = (before ++ d :: after)%list
    ∧ (validate_item_rows db rows).1 = (before' ++ d :: after)%list
    ∧ validate_item_rows db before = (before', None)
    ∧ ¬ line_passes db d.
Proof.
  induction rows as [|d rest IH]; [done|].
  rewrite validate_item_rows_cons.
  destruct (truthy (row_get d "item_code")) eqn:Hcode; cbn [negb].
  - destruct (set_missing_line db d Hcode) as [[Hok Hpass]|[Hfail Hnot]].
    + destruct (set_missing _ item_fields d) as [d' e'] eqn:Hrun. cbn [snd] in Hok. subst e'.
      cbn [fst snd]. intros Hrest.
      destruct (IH Hrest) as (before & before' & x & after & -> & Hres & Hpre & Hx).
      exists (d :: before), (d' :: before'), x, after. split_and!; try done.
      * by rewrite Hres.
      * rewrite validate_item_rows_cons, Hcode. cbn [negb]. rewrite Hrun, Hpre. done.
    + rewrite Hfail. intros _. by exists [], [], d, rest.
  - cbn [fst snd]. intros Hrest.
    destruct (IH Hrest) as (before & before' & x & after & -> & Hres & Hpre & Hx).
    exists (d :: before), (d :: before'), x, after. split_and!; try done.
    + by rewrite Hres.
    + rewrite validate_item_rows_cons, Hcode. cbn [negb]. rewrite Hpre. done.
Qed.

(** X13. When [validate_item_details] raises, it stops at the first line
    item that cannot be backfilled: the lines before it have been processed
    as in a run of their own and stay so, the failing line and every line
    after it are exactly as they were. *)
Theorem validate_item_details_failure_local db self e :
  (validate_item_details db self).2 = Some e →
  ∃ (before before' : list Row) d after,
    items self = (before ++ d :: after)%list
    ∧ items (validate_item_details db self).1 = (before' ++ d :: after)%list
    ∧ validate_item_rows db before = (before', None)
    ∧ ¬ line_passes db d.
Proof.
  unfold validate_item_details. destruct (items self) as [|d rest] eqn:Hitems; [done|].
  cbn [fst snd set_items items]. apply validate_item_rows_failure.
Qed.

Lemma validate_item_details_failure_local_witness :
  ∃ (before before' : list Row) d after,
    items opp_missing_item = (before ++ d :: after)%list
    ∧ items (validate_item_details empty_db opp_missing_item).1 = (before' ++ d :: after)%list
    ∧ validate_item_rows empty_db before = (before', None)
    ∧ ¬ line_passes empty_db d.
Proof.
  apply (validate_item_details_failure_local empty_db opp_missing_item
           (AttributeError "'NoneType' object has no attribute 'get'")).
  reflexivity.
Defined.
